(** * Form organisms of the content-management front end

    A shallow embedding of the two form components
    ([LoginForm], [PostForm]) and of the properties their
    specification states about them.

    Each component is a record of the values it keeps with [useState],
    its handlers are functions on that record, and the rendered markup is
    a [View] that tells which controls are disabled.  An event of the
    browser reaches a handler only when the control that fires it is
    enabled, so the step function of a form consults the view first.

    [handleSubmit] is an [async] function with a single [await]: it is
    embedded as the part that runs synchronously up to the call of the
    server action ([handleSubmit]) and the part that runs when the
    promise settles ([handleSubmit_resume]).  The calls a form makes
    ([createPost], [authorizeUser], [onSuccess], [window.location.reload])
    are recorded in a log.  [onSuccess] and [window.location.reload]
    are called inside the [try] block: either may throw, and how each
    completes comes with the event that settles the promise.  The state
    of the component after the reload was asked for is the one the
    handler wrote.

    [generateSlug], [validatePostForm] and [validateLoginForm] live in
    [utils/], outside the sources at hand: the components take them as
    parameters, and the modules [StringUtils] and [Validation] give the
    versions the specification describes. *)

From Stdlib Require Import Ascii String.
From stdpp Require Import base option list strings gmap.

Local Open Scope string_scope.
Local Open Scope list_scope.

(** ** JavaScript conventions the components rely on *)

Module JS.

(** A string is truthy when it is not empty. *)
Definition truthy (s : string) : bool := negb (String.eqb s "").

(** A value of type [string | undefined]. *)
Definition truthy_opt (o : option string) : bool :=
  match o with
  | Some s => truthy s
  | None => false
  end.

(** [o || d] where [o : string | undefined]. *)
Definition or_else (o : option string) (d : string) : string :=
  match o with
  | Some s => if truthy s then s else d
  | None => d
  end.

(** [o || []] where [o] is an array or [undefined]; an array is truthy
    even when it is empty. *)
Definition or_empty {A} (o : option (list A)) : list A :=
  match o with
  | Some l => l
  | None => []
  end.

(** [o[k]] on an object whose properties hold [string | undefined]:
    a missing key and a key bound to [undefined] both read as
    [undefined]. *)
Definition get (o : gmap string (option string)) (k : string) : option string :=
  match o !! k with
  | Some v => v
  | None => None
  end.

(** [Object.keys(o).length]. *)
Definition keys_length (o : gmap string (option string)) : nat := size o.

(** [a.includes(x)]. *)
Definition includes (a : list string) (x : string) : bool :=
  existsb (String.eqb x) a.

End JS.

(** [FormErrors<T>]: field name to an optional message. *)
Abbreviation FormErrors := (gmap string (option string)).

(** ** Server actions

    [authorizeUser] and [createPost] are opaque remote calls; a form sees
    only how the promise settles. *)

Record ActionResult := {
  success : bool;
  error : option string
}.

Inductive Settlement :=
| Resolved (result : ActionResult)
| Rejected.

(** What a form does to the outside world. *)
Inductive Effect (Payload : Type) :=
| CallAction (payload : Payload)
| CallOnSuccess
| Reload.

Arguments CallAction {Payload} payload.
Arguments CallOnSuccess {Payload}.
Arguments Reload {Payload}.

(** [onSuccess?.()]: the callback is called when the prop was passed. *)
Definition call_optional {Payload} (supplied : bool) : list (Effect Payload) :=
  if supplied then [CallOnSuccess] else [].

(** How a call that a form makes completes. *)
Inductive Completion := Returns | Throws.

(** How the two calls of a success branch complete, should they be
    made: [onSuccess] and [window.location.reload]. *)
Record Outside := {
  onSuccessCall : Completion;
  reloadCall : Completion
}.

(** [onSuccess?.(); window.location.reload()] inside a [try]: the calls
    that are made and how the sequence completes.  When the callback
    throws, the reload is not reached. *)
Definition successCalls {Payload} (supplied : bool) (outside : Outside)
  : list (Effect Payload) * Completion :=
  match supplied, onSuccessCall outside with
  | true, Throws => ([CallOnSuccess], Throws)
  | _, _ => (call_optional supplied ++ [Reload], reloadCall outside)
  end.

Definition is_call {Payload} (e : Effect Payload) : bool :=
  match e with
  | CallAction _ => true
  | _ => false
  end.

(** Number of server-action calls in a log. *)
Definition calls {Payload} (l : list (Effect Payload)) : nat :=
  length (filter (fun e => is_call e = true) l).

(** Whether a settlement is a failure of the submission: the action
    answered [success = false] or threw. *)
Definition failed (o : Settlement) : bool :=
  match o with
  | Resolved r => negb (success r)
  | Rejected => true
  end.

(** ** LoginForm *)

Module LoginForm.

Inductive Field := Email | Password.

(** The [name] attribute of the input the event comes from. *)
Definition name (f : Field) : string :=
  match f with
  | Email => "email"
  | Password => "password"
  end.

Record LoginFormData := {
  email : string;
  password : string
}.

Record State := {
  formData : LoginFormData;
  errors : FormErrors;
  isSubmitting : bool;
  serverError : string
}.

Definition initial : State :=
  {| formData := {| email := ""; password := "" |};
     errors := ∅;
     isSubmitting := false;
     serverError := "" |}.

(** [{ ...prev, [name]: value }] *)
Definition assign (prev : LoginFormData) (f : Field) (value : string) : LoginFormData :=
  match f with
  | Email => {| email := value; password := password prev |}
  | Password => {| email := email prev; password := value |}
  end.

Definition setErrors (v : FormErrors) (s : State) : State :=
  {| formData := formData s; errors := v;
     isSubmitting := isSubmitting s; serverError := serverError s |}.

Definition setIsSubmitting (v : bool) (s : State) : State :=
  {| formData := formData s; errors := errors s;
     isSubmitting := v; serverError := serverError s |}.

Definition setServerError (v : string) (s : State) : State :=
  {| formData := formData s; errors := errors s;
     isSubmitting := isSubmitting s; serverError := v |}.

Definition setFormData (v : LoginFormData) (s : State) : State :=
  {| formData := v; errors := errors s;
     isSubmitting := isSubmitting s; serverError := serverError s |}.

(** What the markup shows of the state. *)
Record View := {
  errorPanel : option string;
  emailValue : string;
  emailError : option string;
  emailDisabled : bool;
  passwordValue : string;
  passwordError : option string;
  passwordDisabled : bool;
  submitDisabled : bool;
  submitLabel : string
}.

Definition render (s : State) : View :=
  {| errorPanel := if JS.truthy (serverError s) then Some (serverError s) else None;
     emailValue := email (formData s);
     emailError := JS.get (errors s) "email";
     emailDisabled := isSubmitting s;
     passwordValue := password (formData s);
     passwordError := JS.get (errors s) "password";
     passwordDisabled := isSubmitting s;
     submitDisabled := isSubmitting s;
     submitLabel := if isSubmitting s then "Signing in..." else "Login" |}.

Definition inputDisabled (v : View) (f : Field) : bool :=
  match f with
  | Email => emailDisabled v
  | Password => passwordDisabled v
  end.

Inductive Event :=
| Change (f : Field) (value : string)
| Submit
| Settle (o : Settlement) (outside : Outside).

(** The component with what surrounds it: the arguments of the calls
    of [authorizeUser] that have not settled yet, and the log. *)
Record World := {
  form : State;
  awaiting : list (string * string);
  log : list (Effect (string * string))
}.

Definition mount : World :=
  {| form := initial; awaiting := []; log := [] |}.

Section Component.

(** [validateLoginForm] of [utils/validation] and the [onSuccess]
    prop (whether the parent passed one). *)
Variable validateLoginForm : LoginFormData → FormErrors.
Variable onSuccess : bool.

Definition handleChange (s : State) (f : Field) (value : string) : State :=
  let s1 := setFormData (assign (formData s) f value) s in
  let s2 :=
    if JS.truthy_opt (JS.get (errors s) (name f))
    then setErrors (<[name f := None]> (errors s1)) s1
    else s1 in
  if JS.truthy (serverError s) then setServerError "" s2 else s2.

(** Up to the [await]: the new state and, when validation let the
    submission through, the arguments of [authorizeUser]. *)
Definition handleSubmit (s : State) : State * option (string * string) :=
  let s1 := setServerError "" s in
  let validationErrors := validateLoginForm (formData s) in
  if Nat.ltb 0 (JS.keys_length validationErrors)
  then (setErrors validationErrors s1, None)
  else (setIsSubmitting true s1,
        Some (email (formData s), password (formData s))).

(** The message the [else] branch and the [catch] put in
    [serverError]. *)
Definition failureMessage (o : Settlement) : string :=
  match o with
  | Resolved result => JS.or_else (error result) "Authentication failed"
  | Rejected => "An unexpected error occurred"
  end.

(** From the [await] on: [try] body, [catch], [finally]. *)
Definition handleSubmit_resume (s : State) (o : Settlement) (outside : Outside)
  : State * list (Effect (string * string)) :=
  match o with
  | Resolved result =>
      if success result
      then
        let '(effects, completion) := successCalls onSuccess outside in
        match completion with
        | Returns => (setIsSubmitting false s, effects)
        | Throws =>
            (setIsSubmitting false (setServerError "An unexpected error occurred" s),
             effects)
        end
      else (setIsSubmitting false
              (setServerError (JS.or_else (error result) "Authentication failed") s),
            [])
  | Rejected =>
      (setIsSubmitting false (setServerError "An unexpected error occurred" s), [])
  end.

Definition step (w : World) (e : Event) : option World :=
  match e with
  | Change f value =>
      if inputDisabled (render (form w)) f then None
      else Some {| form := handleChange (form w) f value;
                   awaiting := awaiting w; log := log w |}
  | Submit =>
      if submitDisabled (render (form w)) then None
      else
        let '(s, call) := handleSubmit (form w) in
        Some {| form := s;
                awaiting := awaiting w ++ option_list call;
                log := log w ++ (CallAction <$> option_list call) |}
  | Settle o outside =>
      match awaiting w with
      | [] => None
      | _ :: rest =>
          let '(s, effects) := handleSubmit_resume (form w) o outside in
          Some {| form := s; awaiting := rest; log := log w ++ effects |}
      end
  end.

Fixpoint run (w : World) (events : list Event) : option World :=
  match events with
  | [] => Some w
  | e :: events' =>
      match step w e with
      | Some w' => run w' events'
      | None => None
      end
  end.

End Component.

End LoginForm.

(** ** PostForm *)

Module PostForm.

(** The inputs [handleChange] is attached to. *)
Inductive Field := Title | Slug | Content.

Definition name (f : Field) : string :=
  match f with
  | Title => "title"
  | Slug => "slug"
  | Content => "content"
  end.

Record Category := {
  id : string;
  label : string
}.

Record PostFormData := {
  title : string;
  slug : string;
  content : string;
  categories : option (list string)
}.

Record State := {
  formData : PostFormData;
  errors : FormErrors;
  isSubmitting : bool;
  serverError : string;
  successMessage : string;
  isSlugManuallyEdited : bool
}.

(** The value both [useState] and the two resets write. *)
Definition emptyForm : PostFormData :=
  {| title := ""; slug := ""; content := ""; categories := Some [] |}.

Definition initial : State :=
  {| formData := emptyForm;
     errors := ∅;
     isSubmitting := false;
     serverError := "";
     successMessage := "";
     isSlugManuallyEdited := false |}.

(** [{ ...prev, [name]: value }] *)
Definition assign (prev : PostFormData) (f : Field) (value : string) : PostFormData :=
  match f with
  | Title =>
      {| title := value; slug := slug prev;
         content := content prev; categories := categories prev |}
  | Slug =>
      {| title := title prev; slug := value;
         content := content prev; categories := categories prev |}
  | Content =>
      {| title := title prev; slug := slug prev;
         content := value; categories := categories prev |}
  end.

(** [{ ...prev, categories: v }] *)
Definition assignCategories (prev : PostFormData) (v : list string) : PostFormData :=
  {| title := title prev; slug := slug prev;
     content := content prev; categories := Some v |}.

Definition setFormData (v : PostFormData) (s : State) : State :=
  {| formData := v; errors := errors s; isSubmitting := isSubmitting s;
     serverError := serverError s; successMessage := successMessage s;
     isSlugManuallyEdited := isSlugManuallyEdited s |}.

Definition setErrors (v : FormErrors) (s : State) : State :=
  {| formData := formData s; errors := v; isSubmitting := isSubmitting s;
     serverError := serverError s; successMessage := successMessage s;
     isSlugManuallyEdited := isSlugManuallyEdited s |}.

Definition setIsSubmitting (v : bool) (s : State) : State :=
  {| formData := formData s; errors := errors s; isSubmitting := v;
     serverError := serverError s; successMessage := successMessage s;
     isSlugManuallyEdited := isSlugManuallyEdited s |}.

Definition setServerError (v : string) (s : State) : State :=
  {| formData := formData s; errors := errors s; isSubmitting := isSubmitting s;
     serverError := v; successMessage := successMessage s;
     isSlugManuallyEdited := isSlugManuallyEdited s |}.

Definition setSuccessMessage (v : string) (s : State) : State :=
  {| formData := formData s; errors := errors s; isSubmitting := isSubmitting s;
     serverError := serverError s; successMessage := v;
     isSlugManuallyEdited := isSlugManuallyEdited s |}.

Definition setIsSlugManuallyEdited (v : bool) (s : State) : State :=
  {| formData := formData s; errors := errors s; isSubmitting := isSubmitting s;
     serverError := serverError s; successMessage := successMessage s;
     isSlugManuallyEdited := v |}.

(** The body of the updater [handleCategoryToggle] passes to
    [setFormData], on the list of selected ids. *)
Definition toggle (currentCategories : list string) (categoryId : string) : list string :=
  let isSelected := JS.includes currentCategories categoryId in
  if isSelected
  then List.filter (fun id => negb (String.eqb id categoryId)) currentCategories
  else currentCategories ++ [categoryId].

Definition handleCategoryToggle (s : State) (categoryId : string) : State :=
  let prev := formData s in
  let currentCategories := JS.or_empty (categories prev) in
  setFormData (assignCategories prev (toggle currentCategories categoryId)) s.

(** The [onClick] of the Clear button. *)
Definition handleClear (s : State) : State :=
  setSuccessMessage "" (setServerError "" (setErrors ∅ (setFormData emptyForm s))).

Record CheckboxView := {
  checkboxId : string;
  checkboxLabel : string;
  checked : bool;
  checkboxDisabled : bool
}.

Record View := {
  errorPanel : option string;
  successPanel : option string;
  titleValue : string;
  titleError : option string;
  titleDisabled : bool;
  slugValue : string;
  slugError : option string;
  slugDisabled : bool;
  contentValue : string;
  contentError : option string;
  contentDisabled : bool;
  checkboxes : list CheckboxView;
  submitDisabled : bool;
  submitLabel : string;
  clearDisabled : bool
}.

Inductive Event :=
| Change (f : Field) (value : string)
| Toggle (categoryId : string)
| Submit
| Clear
| Settle (o : Settlement) (outside : Outside).

(** The component with what surrounds it: the arguments of the calls
    of [createPost] that have not settled yet, and the log. *)
Record World := {
  form : State;
  awaiting : list PostFormData;
  log : list (Effect PostFormData)
}.

Definition mount : World :=
  {| form := initial; awaiting := []; log := [] |}.

Definition inputDisabled (v : View) (f : Field) : bool :=
  match f with
  | Title => titleDisabled v
  | Slug => slugDisabled v
  | Content => contentDisabled v
  end.

(** A checkbox of that category is on the page and enabled. *)
Definition checkboxEnabled (v : View) (categoryId : string) : bool :=
  existsb (fun c => String.eqb (checkboxId c) categoryId && negb (checkboxDisabled c))
          (checkboxes v).

Section Component.

(** [generateSlug] of [utils/string], [validatePostForm] of
    [utils/validation], and the props. *)
Variable generateSlug : string → string.
Variable validatePostForm : PostFormData → FormErrors.
Variable categoriesProp : list Category.
Variable onSuccess : bool.

Definition render (s : State) : View :=
  {| errorPanel := if JS.truthy (serverError s) then Some (serverError s) else None;
     successPanel := if JS.truthy (successMessage s) then Some (successMessage s) else None;
     titleValue := title (formData s);
     titleError := JS.get (errors s) "title";
     titleDisabled := isSubmitting s;
     slugValue := slug (formData s);
     slugError := JS.get (errors s) "slug";
     slugDisabled := isSubmitting s;
     contentValue := content (formData s);
     contentError := JS.get (errors s) "content";
     contentDisabled := isSubmitting s;
     checkboxes :=
       if Nat.ltb 0 (length categoriesProp)
       then (fun category =>
               {| checkboxId := id category;
                  checkboxLabel := label category;
                  checked := JS.includes (JS.or_empty (categories (formData s))) (id category);
                  checkboxDisabled := isSubmitting s |}) <$> categoriesProp
       else [];
     submitDisabled := isSubmitting s;
     submitLabel := if isSubmitting s then "Creating..." else "Create Post";
     clearDisabled := isSubmitting s |}.

Definition handleChange (s : State) (f : Field) (value : string) : State :=
  let newData := assign (formData s) f value in
  let newData :=
    if String.eqb (name f) "title" && negb (isSlugManuallyEdited s)
    then assign newData Slug (generateSlug value)
    else newData in
  let s1 := setFormData newData s in
  let s2 :=
    if String.eqb (name f) "slug" then setIsSlugManuallyEdited true s1 else s1 in
  let s3 :=
    if JS.truthy_opt (JS.get (errors s) (name f))
    then setErrors (<[name f := None]> (errors s2)) s2
    else s2 in
  let s4 := if JS.truthy (serverError s) then setServerError "" s3 else s3 in
  if JS.truthy (successMessage s) then setSuccessMessage "" s4 else s4.

(** Up to the [await]: the new state and, when validation let the
    submission through, the argument of [createPost]. *)
Definition handleSubmit (s : State) : State * option PostFormData :=
  let s1 := setSuccessMessage "" (setServerError "" s) in
  let validationErrors := validatePostForm (formData s) in
  if Nat.ltb 0 (JS.keys_length validationErrors)
  then (setErrors validationErrors s1, None)
  else (setIsSubmitting true s1, Some (formData s)).

(** The message the [else] branch and the [catch] put in
    [serverError]. *)
Definition failureMessage (o : Settlement) : string :=
  match o with
  | Resolved result => JS.or_else (error result) "Failed to create post"
  | Rejected => "An unexpected error occurred"
  end.

(** From the [await] on: [try] body, [catch], [finally]. *)
Definition handleSubmit_resume (s : State) (o : Settlement) (outside : Outside)
  : State * list (Effect PostFormData) :=
  match o with
  | Resolved result =>
      if success result
      then
        let s1 :=
          setIsSlugManuallyEdited false
            (setFormData emptyForm
               (setSuccessMessage "Post created successfully!" s)) in
        let '(effects, completion) := successCalls onSuccess outside in
        match completion with
        | Returns => (setIsSubmitting false s1, effects)
        | Throws =>
            (setIsSubmitting false (setServerError "An unexpected error occurred" s1),
             effects)
        end
      else (setIsSubmitting false
              (setServerError (JS.or_else (error result) "Failed to create post") s),
            [])
  | Rejected =>
      (setIsSubmitting false (setServerError "An unexpected error occurred" s), [])
  end.

Definition step (w : World) (e : Event) : option World :=
  match e with
  | Change f value =>
      if inputDisabled (render (form w)) f then None
      else Some {| form := handleChange (form w) f value;
                   awaiting := awaiting w; log := log w |}
  | Toggle categoryId =>
      if checkboxEnabled (render (form w)) categoryId
      then Some {| form := handleCategoryToggle (form w) categoryId;
                   awaiting := awaiting w; log := log w |}
      else None
  | Submit =>
      if submitDisabled (render (form w)) then None
      else
        let '(s, call) := handleSubmit (form w) in
        Some {| form := s;
                awaiting := awaiting w ++ option_list call;
                log := log w ++ (CallAction <$> option_list call) |}
  | Clear =>
      if clearDisabled (render (form w)) then None
      else Some {| form := handleClear (form w);
                   awaiting := awaiting w; log := log w |}
  | Settle o outside =>
      match awaiting w with
      | [] => None
      | _ :: rest =>
          let '(s, effects) := handleSubmit_resume (form w) o outside in
          Some {| form := s; awaiting := rest; log := log w ++ effects |}
      end
  end.

Fixpoint run (w : World) (events : list Event) : option World :=
  match events with
  | [] => Some w
  | e :: events' =>
      match step w e with
      | Some w' => run w' events'
      | None => None
      end
  end.

End Component.

End PostForm.

(** ** The helpers of [utils/] *)

Module StringUtils.

Definition code (c : ascii) : nat := nat_of_ascii c.

Definition between (lo hi n : nat) : bool := Nat.leb lo n && Nat.leb n hi.

Definition isUpper (c : ascii) : bool := between 65 90 (code c).

Definition toLower (c : ascii) : ascii :=
  if isUpper c then ascii_of_nat (code c + 32) else c.

(** Space, tab, line feed, vertical tab, form feed, carriage return. *)
Definition isWhitespace (c : ascii) : bool :=
  Nat.eqb (code c) 32 || between 9 13 (code c).

(** The printable characters of ASCII that are neither letters nor
    digits nor the space. *)
Definition isPunctuation (c : ascii) : bool :=
  between 33 47 (code c) || between 58 64 (code c)
  || between 91 96 (code c) || between 123 126 (code c).

Definition slugChar (c : ascii) : ascii :=
  if isWhitespace c || isPunctuation c then "-"%char else toLower c.

(** Modelled from the spec: [generateSlug] of [utils/string] is not
    among the sources.  The spec says the slug is derived from the
    title by "lowercase, whitespace/punctuation to hyphens": every
    character is mapped on its own, a whitespace or punctuation
    character to a hyphen and any other to its lower case. *)
Fixpoint generateSlug (s : string) : string :=
  match s with
  | EmptyString => EmptyString
  | String c s' => String (slugChar c) (generateSlug s')
  end.

End StringUtils.

Module Validation.

(** One presence check: a field whose value is empty gets a message. *)
Definition required (field value message : string) (found : FormErrors) : FormErrors :=
  if JS.truthy value then found else <[field := Some message]> found.

(** Modelled from the spec: [validatePostForm] of [utils/validation]
    is not among the sources.  The spec says validation is a "pure
    function from form data to an error mapping; empty mapping means
    valid" and that "given an empty title/content, validation must
    report non-empty errors": the title and the content are checked
    for presence. *)
Definition validatePostForm (data : PostForm.PostFormData) : FormErrors :=
  required "title" (PostForm.title data) "Title is required"
    (required "content" (PostForm.content data) "Content is required" ∅).

(** Modelled from the spec: [validateLoginForm] of [utils/validation]
    is not among the sources.  The spec says of it what it says of
    [validatePostForm]; the fields of the login form are the email and
    the password. *)
Definition validateLoginForm (data : LoginForm.LoginFormData) : FormErrors :=
  required "email" (LoginForm.email data) "Email is required"
    (required "password" (LoginForm.password data) "Password is required" ∅).

End Validation.

(** ** Traces and invariants *)

(** No change event on the slug input in the trace. *)
Definition slugUntouched (events : list PostForm.Event) : bool :=
  forallb (fun e => match e with
                    | PostForm.Change PostForm.Slug _ => false
                    | _ => true
                    end) events.

(** No submission of the trace was answered with [success = true]. *)
Definition noSuccess (events : list PostForm.Event) : bool :=
  forallb (fun e => match e with
                    | PostForm.Settle o _ => failed o
                    | _ => true
                    end) events.

(** Whether the calls a success branch makes all return, given whether
    [onSuccess] was passed; and the same of the settlements of a
    trace, those that fail making no such call. *)
Definition successThrows (supplied : bool) (outside : Outside) : bool :=
  match (successCalls (Payload := unit) supplied outside).2 with
  | Throws => true
  | Returns => false
  end.

Definition callsReturn (supplied : bool) (e : PostForm.Event) : bool :=
  match e with
  | PostForm.Settle o outside => failed o || negb (successThrows supplied outside)
  | _ => true
  end.

Definition noThrow (supplied : bool) (events : list PostForm.Event) : bool :=
  forallb (callsReturn supplied) events.

(** What holds of a [PostForm] between two events: a call is awaited
    exactly while [isSubmitting] is set, both banners are empty during
    the call, and the success banner is only there over a form that
    was reset and not typed into since. *)
Record PostInvariant (w : PostForm.World) : Prop := {
  post_in_flight :
    length (PostForm.awaiting w) = if PostForm.isSubmitting (PostForm.form w) then 1 else 0;
  post_quiet :
    PostForm.isSubmitting (PostForm.form w) = true →
    PostForm.serverError (PostForm.form w) = ""
    ∧ PostForm.successMessage (PostForm.form w) = "";
  post_success_blank :
    PostForm.successMessage (PostForm.form w) ≠ "" →
    PostForm.title (PostForm.formData (PostForm.form w)) = ""
    ∧ PostForm.content (PostForm.formData (PostForm.form w)) = ""
}.

Definition LoginInvariant (w : LoginForm.World) : Prop :=
  length (LoginForm.awaiting w) = if LoginForm.isSubmitting (LoginForm.form w) then 1 else 0.

(** ** Sample forms

    Concrete values at which the theorems below are instantiated. *)

(** Every call of the success branch returns. *)
Definition calm : Outside :=
  {| onSuccessCall := Returns; reloadCall := Returns |}.

(** The callback passed as [onSuccess] throws. *)
Definition stormy : Outside :=
  {| onSuccessCall := Throws; reloadCall := Returns |}.

(** Two answers of a server action. *)
Definition created : ActionResult :=
  {| success := true; error := None |}.

Definition refused : ActionResult :=
  {| success := false; error := Some "Slug is already taken" |}.

(** A draft whose slug was typed by hand, and the events that enter
    it. *)
Definition draft : PostForm.PostFormData :=
  {| PostForm.title := "My Post";
     PostForm.slug := "custom";
     PostForm.content := "body";
     PostForm.categories := Some [] |}.

Definition draftTrace : list PostForm.Event :=
  [PostForm.Change PostForm.Title "My Post";
   PostForm.Change PostForm.Slug "custom";
   PostForm.Change PostForm.Content "body"].

(** The draft typed in, before the submit button is pressed. *)
Definition draftReady : PostForm.World :=
  {| PostForm.form :=
       {| PostForm.formData := draft;
          PostForm.errors := ∅;
          PostForm.isSubmitting := false;
          PostForm.serverError := "";
          PostForm.successMessage := "";
          PostForm.isSlugManuallyEdited := true |};
     PostForm.awaiting := [];
     PostForm.log := [] |}.

(** The form while [createPost] is awaited for the draft. *)
Definition draftInFlight : PostForm.World :=
  {| PostForm.form :=
       {| PostForm.formData := draft;
          PostForm.errors := ∅;
          PostForm.isSubmitting := true;
          PostForm.serverError := "";
          PostForm.successMessage := "";
          PostForm.isSlugManuallyEdited := true |};
     PostForm.awaiting := [draft];
     PostForm.log := [CallAction draft] |}.

(** The slug is typed by hand and the post is created. *)
Definition editThenSucceed : list PostForm.Event :=
  [PostForm.Change PostForm.Title "My Post"]
  ++ PostForm.Change PostForm.Slug "custom"
  :: [PostForm.Change PostForm.Content "body";
      PostForm.Submit;
      PostForm.Settle (Resolved created) calm].

(** The PostForm after an empty form was submitted: both fields carry
    their message. *)
Definition emptySubmitted : PostForm.State :=
  PostForm.setErrors (Validation.validatePostForm PostForm.emptyForm) PostForm.initial.

(** The credentials are typed in and the login button is pressed. *)
Definition loginTrace : list LoginForm.Event :=
  [LoginForm.Change LoginForm.Email "editor@example.org";
   LoginForm.Change LoginForm.Password "secret";
   LoginForm.Submit].

(** The credentials typed in, before the login button is pressed. *)
Definition loginReady : LoginForm.World :=
  {| LoginForm.form :=
       {| LoginForm.formData :=
            {| LoginForm.email := "editor@example.org"; LoginForm.password := "secret" |};
          LoginForm.errors := ∅;
          LoginForm.isSubmitting := false;
          LoginForm.serverError := "" |};
     LoginForm.awaiting := [];
     LoginForm.log := [] |}.

(** The login form while [authorizeUser] is awaited. *)
Definition loginInFlight : LoginForm.World :=
  {| LoginForm.form :=
       {| LoginForm.formData :=
            {| LoginForm.email := "editor@example.org"; LoginForm.password := "secret" |};
          LoginForm.errors := ∅;
          LoginForm.isSubmitting := true;
          LoginForm.serverError := "" |};
     LoginForm.awaiting := [("editor@example.org", "secret")];
     LoginForm.log := [CallAction ("editor@example.org", "secret")] |}.

(** The LoginForm after an empty form was submitted. *)
Definition emptyLoginSubmitted : LoginForm.State :=
  LoginForm.setErrors
    (Validation.validateLoginForm (LoginForm.formData LoginForm.initial))
    LoginForm.initial.

(** ** Reading the markup and the log *)

(** The [value] attribute of an input of the PostForm. *)
Definition postInputValue (v : PostForm.View) (f : PostForm.Field) : string :=
  match f with
  | PostForm.Title => PostForm.titleValue v
  | PostForm.Slug => PostForm.slugValue v
  | PostForm.Content => PostForm.contentValue v
  end.

Definition loginInputValue (v : LoginForm.View) (f : LoginForm.Field) : string :=
  match f with
  | LoginForm.Email => LoginForm.emailValue v
  | LoginForm.Password => LoginForm.passwordValue v
  end.

(** The ids of the categories a PostForm offers. *)
Definition offered (categoriesProp : list PostForm.Category) : list string :=
  PostForm.id <$> categoriesProp.

(** The ids of the checkboxes that are ticked. *)
Definition ticked (v : PostForm.View) : list string :=
  PostForm.checkboxId <$> List.filter PostForm.checked (PostForm.checkboxes v).





(** ** Further invariants *)

(** The call that is awaited was made with the form data on display. *)
Definition PostPayload (w : PostForm.World) : Prop :=
  PostForm.awaiting w =
    if PostForm.isSubmitting (PostForm.form w)
    then [PostForm.formData (PostForm.form w)]
    else [].

Definition LoginPayload (w : LoginForm.World) : Prop :=
  LoginForm.awaiting w =
    if LoginForm.isSubmitting (LoginForm.form w)
    then [(LoginForm.email (LoginForm.formData (LoginForm.form w)),
           LoginForm.password (LoginForm.formData (LoginForm.form w)))]
    else [].

(** The selection is an array without repetition of offered ids. *)
Definition PostSelection (categoriesProp : list PostForm.Category) (s : PostForm.State) : Prop :=
  ∃ l, PostForm.categories (PostForm.formData s) = Some l
       ∧ NoDup l
       ∧ ∀ x, x ∈ l → x ∈ offered categoriesProp.

(** While the slug was not typed by hand it is the slug of the title,
    or both are as empty as a reset leaves them. *)
Definition SlugInSync (generateSlug : string → string) (s : PostForm.State) : Prop :=
  PostForm.isSlugManuallyEdited s = false →
  (PostForm.title (PostForm.formData s) = "" ∧ PostForm.slug (PostForm.formData s) = "")
  ∨ PostForm.slug (PostForm.formData s) = generateSlug (PostForm.title (PostForm.formData s)).

(** No banner while the login is under way. *)
Definition LoginQuiet (w : LoginForm.World) : Prop :=
  LoginForm.isSubmitting (LoginForm.form w) = true →
  LoginForm.serverError (LoginForm.form w) = "".


(** Two categories to choose from, and a selection made and undone. *)
Definition sampleCategories : list PostForm.Category :=
  [{| PostForm.id := "news"; PostForm.label := "News" |};
   {| PostForm.id := "tech"; PostForm.label := "Tech" |}].

Definition selectTrace : list PostForm.Event :=
  [PostForm.Toggle "news"; PostForm.Toggle "tech"; PostForm.Toggle "news"].

(** A title and a content typed in, the slug left to the form. *)
Definition helloTrace : list PostForm.Event :=
  [PostForm.Change PostForm.Title "Hello World";
   PostForm.Change PostForm.Content "body"].

(** The success banner is only up over a form that was emptied, with
    the manual-edit flag down and nothing under way. *)
Definition SuccessOverBlank (s : PostForm.State) : Prop :=
  PostForm.successMessage s ≠ "" →
  PostForm.title (PostForm.formData s) = ""
  ∧ PostForm.slug (PostForm.formData s) = ""
  ∧ PostForm.content (PostForm.formData s) = ""
  ∧ PostForm.isSlugManuallyEdited s = false
  ∧ PostForm.isSubmitting s = false.

(** Closes the side goals of an invariant: a premise that cannot hold,
    or a conclusion that is there among the hypotheses. *)
(** The ways the calls of a success branch can go. *)
Ltac success_paths supplied outside :=
  unfold successCalls in *;
  destruct supplied, (onSuccessCall outside), (reloadCall outside); simpl.

Ltac close_case :=
  simpl; auto;
  try done;
  try congruence;
  try (let H := fresh in intros H; exfalso; by apply H).

(** ** Lemmas on the JavaScript conventions *)

Lemma truthy_false (s : string) : JS.truthy s = false → s = "".
Proof.
  unfold JS.truthy. intros H. apply negb_false_iff in H.
  by apply String.eqb_eq in H.
Qed.

Lemma includes_elem_of (l : list string) (x : string) :
  JS.includes l x = true ↔ x ∈ l.
Proof.
  unfold JS.includes. rewrite existsb_exists. split.
  - intros (y & Hy & E). apply String.eqb_eq in E. subst y.
    by apply list_elem_of_In.
  - intros H. exists x. split; [by apply list_elem_of_In | apply String.eqb_refl].
Qed.

Lemma get_insert_undefined (m : FormErrors) (k : string) :
  JS.get (<[k := None]> m) k = None.
Proof. unfold JS.get. by rewrite lookup_insert_eq. Qed.

Lemma calls_app {P} (l l' : list (Effect P)) : calls (l ++ l') = calls l + calls l'.
Proof. unfold calls. by rewrite filter_app, length_app. Qed.

(** ** Lemmas on the handlers of PostForm *)

Section PostFormLemmas.

Variable generateSlug : string → string.
Variable validatePostForm : PostForm.PostFormData → FormErrors.
Variable categoriesProp : list PostForm.Category.
Variable onSuccess : bool.

Local Abbreviation handleChange := (PostForm.handleChange generateSlug).
Local Abbreviation handleSubmit := (PostForm.handleSubmit validatePostForm).
Local Abbreviation resume := (PostForm.handleSubmit_resume onSuccess).
Local Abbreviation step :=
  (PostForm.step generateSlug validatePostForm categoriesProp onSuccess).
Local Abbreviation run :=
  (PostForm.run generateSlug validatePostForm categoriesProp onSuccess).

Lemma change_formData s f v :
  PostForm.formData (handleChange s f v) =
    match f with
    | PostForm.Title =>
        if PostForm.isSlugManuallyEdited s
        then PostForm.assign (PostForm.formData s) PostForm.Title v
        else PostForm.assign (PostForm.assign (PostForm.formData s) PostForm.Title v)
               PostForm.Slug (generateSlug v)
    | _ => PostForm.assign (PostForm.formData s) f v
    end.
Proof.
  unfold PostForm.handleChange.
  destruct f, (PostForm.isSlugManuallyEdited s); simpl; by repeat case_match.
Qed.

Lemma change_errors s f v :
  PostForm.errors (handleChange s f v) =
    if JS.truthy_opt (JS.get (PostForm.errors s) (PostForm.name f))
    then <[PostForm.name f := None]> (PostForm.errors s)
    else PostForm.errors s.
Proof.
  unfold PostForm.handleChange.
  destruct f; simpl; by repeat case_match.
Qed.

Lemma change_isSubmitting s f v :
  PostForm.isSubmitting (handleChange s f v) = PostForm.isSubmitting s.
Proof.
  unfold PostForm.handleChange.
  destruct f; simpl; by repeat case_match.
Qed.

Lemma change_serverError s f v : PostForm.serverError (handleChange s f v) = "".
Proof.
  unfold PostForm.handleChange.
  destruct (JS.truthy (PostForm.serverError s)) eqn:E;
    destruct f; simpl; repeat case_match; simpl; try done; by apply truthy_false.
Qed.

Lemma change_successMessage s f v : PostForm.successMessage (handleChange s f v) = "".
Proof.
  unfold PostForm.handleChange.
  destruct (JS.truthy (PostForm.successMessage s)) eqn:E;
    destruct f; simpl; repeat case_match; simpl; try done; by apply truthy_false.
Qed.

Lemma change_isSlugManuallyEdited s f v :
  PostForm.isSlugManuallyEdited (handleChange s f v) =
    match f with
    | PostForm.Slug => true
    | _ => PostForm.isSlugManuallyEdited s
    end.
Proof.
  unfold PostForm.handleChange.
  destruct f; simpl; by repeat case_match.
Qed.

Lemma checkbox_enabled_idle s categoryId :
  PostForm.checkboxEnabled (PostForm.render categoriesProp s) categoryId = true →
  PostForm.isSubmitting s = false.
Proof.
  unfold PostForm.checkboxEnabled, PostForm.render. simpl.
  intros H. apply existsb_exists in H as (c & Hc & Hen).
  apply andb_true_iff in Hen as [_ Hen]. apply negb_true_iff in Hen.
  destruct (Nat.ltb 0 (length categoriesProp)); [| by destruct Hc].
  apply list_elem_of_In, list_elem_of_fmap in Hc as (category & -> & _).
  exact Hen.
Qed.

(** An event is handled only while no submission is under way, a
    settlement only while one is. *)
Lemma step_enabled w e w' :
  step w e = Some w' →
  match e with
  | PostForm.Settle _ _ => PostForm.awaiting w ≠ []
  | _ => PostForm.isSubmitting (PostForm.form w) = false
  end.
Proof.
  destruct e; simpl.
  - destruct f; simpl; by destruct (PostForm.isSubmitting (PostForm.form w)).
  - destruct (PostForm.checkboxEnabled _ _) eqn:E; [| done].
    intros _. by eapply checkbox_enabled_idle.
  - by destruct (PostForm.isSubmitting (PostForm.form w)).
  - by destruct (PostForm.isSubmitting (PostForm.form w)).
  - by destruct (PostForm.awaiting w).
Qed.

Lemma mount_invariant : PostInvariant PostForm.mount.
Proof. split; simpl; auto. Qed.

Lemma step_invariant w e w' :
  PostInvariant w → step w e = Some w' → PostInvariant w'.
Proof.
  intros [Hfl Hq Hbl] Hstep.
  pose proof (step_enabled _ _ _ Hstep) as Hen.
  destruct e; simpl in Hstep, Hen.
  - (* Change *)
    replace (PostForm.inputDisabled _ f) with (PostForm.isSubmitting (PostForm.form w))
      in Hstep by (by destruct f).
    rewrite Hen in Hstep, Hfl. injection Hstep as <-.
    split; simpl; rewrite ?change_isSubmitting, ?change_serverError,
      ?change_successMessage, ?Hen; close_case.
  - (* Toggle *)
    destruct (PostForm.checkboxEnabled _ _); [| done]. injection Hstep as <-.
    split; close_case.
  - (* Submit *)
    rewrite Hen in Hstep, Hfl. unfold PostForm.handleSubmit in Hstep.
    destruct (Nat.ltb 0 _); injection Hstep as <-;
      split; simpl; rewrite ?length_app, ?Hen, ?Hfl; close_case.
  - (* Clear *)
    rewrite Hen in Hstep, Hfl. injection Hstep as <-.
    split; simpl; rewrite ?Hen; close_case.
  - (* Settle *)
    destruct (PostForm.awaiting w) as [| call rest] eqn:Haw; [done |].
    destruct (PostForm.isSubmitting (PostForm.form w)) eqn:Hsub; [| done].
    destruct (Hq eq_refl) as [Herr Hok].
    assert (rest = []) as -> by (destruct rest; [done | discriminate Hfl]).
    unfold PostForm.handleSubmit_resume in Hstep.
    destruct o as [result |];
      [destruct (success result); [success_paths onSuccess outside |] |];
      simpl in Hstep; injection Hstep as <-; split; simpl; rewrite ?Hok; close_case.
Qed.

Lemma run_invariant events : ∀ w w',
  PostInvariant w → run w events = Some w' → PostInvariant w'.
Proof.
  induction events as [| e events IH]; intros w w' Hw Hrun; simpl in Hrun.
  - by injection Hrun as <-.
  - destruct (step w e) as [w1 |] eqn:Hstep; [| done].
    eapply IH; [| exact Hrun]. by eapply step_invariant.
Qed.

Lemma run_cons e events w :
  run w (e :: events) =
    match step w e with
    | Some w1 => run w1 events
    | None => None
    end.
Proof. reflexivity. Qed.

Lemma run_app events1 events2 w :
  run w (events1 ++ events2) =
    match run w events1 with
    | Some w1 => run w1 events2
    | None => None
    end.
Proof.
  revert w. induction events1 as [| e events1 IH]; intros w; simpl; [done |].
  destruct (step w e); [apply IH | done].
Qed.

(** How one event moves the manual-edit flag. *)
Lemma step_flag w e w' :
  step w e = Some w' →
  PostForm.isSlugManuallyEdited (PostForm.form w') =
    match e with
    | PostForm.Change PostForm.Slug _ => true
    | PostForm.Settle o _ =>
        if failed o then PostForm.isSlugManuallyEdited (PostForm.form w) else false
    | _ => PostForm.isSlugManuallyEdited (PostForm.form w)
    end.
Proof.
  destruct e; simpl.
  - destruct f; simpl; (destruct (PostForm.isSubmitting _); [done |]);
      intros [= <-]; simpl; by rewrite change_isSlugManuallyEdited.
  - destruct (PostForm.checkboxEnabled _ _); [| done]. by intros [= <-].
  - destruct (PostForm.isSubmitting _); [done |].
    unfold PostForm.handleSubmit. destruct (Nat.ltb 0 _); by intros [= <-].
  - destruct (PostForm.isSubmitting _); [done |]. by intros [= <-].
  - destruct (PostForm.awaiting w); [done |].
    destruct o as [result |]; simpl;
      [destruct (success result); [success_paths onSuccess outside |] |];
      by intros [= <-].
Qed.

Lemma run_flag_stays_clear events : ∀ w w',
  PostForm.isSlugManuallyEdited (PostForm.form w) = false →
  slugUntouched events = true →
  run w events = Some w' →
  PostForm.isSlugManuallyEdited (PostForm.form w') = false.
Proof.
  induction events as [| e events IH]; intros w w' Hflag Hun Hrun; simpl in *.
  - by injection Hrun as <-.
  - apply andb_true_iff in Hun as [He Hun].
    destruct (step w e) as [w1 |] eqn:Hstep; [| done].
    apply (IH w1 w'); [| done | done].
    rewrite (step_flag _ _ _ Hstep).
    destruct e as [[] ? | | | | o ?]; try done. by destruct (failed o).
Qed.

Lemma run_flag_stays_set events : ∀ w w',
  PostForm.isSlugManuallyEdited (PostForm.form w) = true →
  noSuccess events = true →
  run w events = Some w' →
  PostForm.isSlugManuallyEdited (PostForm.form w') = true.
Proof.
  induction events as [| e events IH]; intros w w' Hflag Hno Hrun; simpl in *.
  - by injection Hrun as <-.
  - apply andb_true_iff in Hno as [He Hno].
    destruct (step w e) as [w1 |] eqn:Hstep; [| done].
    apply (IH w1 w'); [| done | done].
    rewrite (step_flag _ _ _ Hstep).
    destruct e as [[] ? | | | | o ?]; try done. by rewrite He.
Qed.

(** A change of the title as the step function handles it. *)
Lemma step_title_slug w t w' :
  step w (PostForm.Change PostForm.Title t) = Some w' →
  PostForm.slug (PostForm.formData (PostForm.form w')) =
    if PostForm.isSlugManuallyEdited (PostForm.form w)
    then PostForm.slug (PostForm.formData (PostForm.form w))
    else generateSlug t.
Proof.
  simpl. destruct (PostForm.isSubmitting _); [done |]. intros [= <-]. simpl.
  rewrite change_formData. by destruct (PostForm.isSlugManuallyEdited _).
Qed.

End PostFormLemmas.

(** ** Lemmas on the handlers of LoginForm *)

Section LoginFormLemmas.

Variable validateLoginForm : LoginForm.LoginFormData → FormErrors.
Variable onSuccess : bool.

Local Abbreviation step := (LoginForm.step validateLoginForm onSuccess).
Local Abbreviation run := (LoginForm.run validateLoginForm onSuccess).

Lemma login_change_errors s f v :
  LoginForm.errors (LoginForm.handleChange s f v) =
    if JS.truthy_opt (JS.get (LoginForm.errors s) (LoginForm.name f))
    then <[LoginForm.name f := None]> (LoginForm.errors s)
    else LoginForm.errors s.
Proof. unfold LoginForm.handleChange. by repeat case_match. Qed.

Lemma login_change_isSubmitting s f v :
  LoginForm.isSubmitting (LoginForm.handleChange s f v) = LoginForm.isSubmitting s.
Proof. unfold LoginForm.handleChange. by repeat case_match. Qed.

Lemma login_step_enabled w e w' :
  step w e = Some w' →
  match e with
  | LoginForm.Settle _ _ => LoginForm.awaiting w ≠ []
  | _ => LoginForm.isSubmitting (LoginForm.form w) = false
  end.
Proof.
  destruct e; simpl.
  - destruct f; simpl; by destruct (LoginForm.isSubmitting (LoginForm.form w)).
  - by destruct (LoginForm.isSubmitting (LoginForm.form w)).
  - by destruct (LoginForm.awaiting w).
Qed.

Lemma login_step_invariant w e w' :
  LoginInvariant w → step w e = Some w' → LoginInvariant w'.
Proof.
  unfold LoginInvariant. intros Hfl Hstep.
  pose proof (login_step_enabled _ _ _ Hstep) as Hen.
  destruct e; simpl in Hstep, Hen.
  - replace (LoginForm.inputDisabled _ f) with (LoginForm.isSubmitting (LoginForm.form w))
      in Hstep by (by destruct f).
    rewrite Hen in Hstep, Hfl. injection Hstep as <-. simpl.
    by rewrite login_change_isSubmitting, Hen.
  - rewrite Hen in Hstep, Hfl. unfold LoginForm.handleSubmit in Hstep.
    destruct (Nat.ltb 0 _); injection Hstep as <-; simpl;
      rewrite length_app, Hfl; by rewrite ?Hen.
  - destruct (LoginForm.awaiting w) as [| call rest]; [done |].
    destruct (LoginForm.isSubmitting (LoginForm.form w)); [| done].
    assert (rest = []) as -> by (destruct rest; [done | discriminate Hfl]).
    unfold LoginForm.handleSubmit_resume in Hstep.
    destruct o as [result |];
      [destruct (success result); [success_paths onSuccess outside |] |];
      simpl in Hstep; by injection Hstep as <-.
Qed.

Lemma login_run_invariant events : ∀ w w',
  LoginInvariant w → run w events = Some w' → LoginInvariant w'.
Proof.
  induction events as [| e events IH]; intros w w' Hw Hrun; simpl in Hrun.
  - by injection Hrun as <-.
  - destruct (step w e) as [w1 |] eqn:Hstep; [| done].
    eapply IH; [| exact Hrun]. by eapply login_step_invariant.
Qed.

End LoginFormLemmas.

(** ** Slug derivation *)

Section SlugDerivation.

Variable generateSlug : string → string.
Variable validatePostForm : PostForm.PostFormData → FormErrors.
Variable categoriesProp : list PostForm.Category.
Variable onSuccess : bool.

Local Abbreviation step :=
  (PostForm.step generateSlug validatePostForm categoriesProp onSuccess).
Local Abbreviation run :=
  (PostForm.run generateSlug validatePostForm categoriesProp onSuccess).
Local Abbreviation slugOf w := (PostForm.slug (PostForm.formData (PostForm.form w))).

(** C1, as amended.  From the mount of a PostForm on: (1) while no change
    event has come from the slug input, every change of the title sets
    the slug to [generateSlug] of the new title, a function of that
    title alone; (2) with the [generateSlug] the spec describes, the
    title "Hello World" gives the slug "hello-world"; (3) after a change
    event on the slug input, and as long as no submission has succeeded
    since, a change of the title leaves the slug as it is. *)
Theorem slug_follows_title_until_edited :
  (∀ events w t w',
     run PostForm.mount events = Some w →
     slugUntouched events = true →
     step w (PostForm.Change PostForm.Title t) = Some w' →
     slugOf w' = generateSlug t)
  ∧ (∀ events w w',
       PostForm.run StringUtils.generateSlug validatePostForm categoriesProp onSuccess
         PostForm.mount events = Some w →
       slugUntouched events = true →
       PostForm.step StringUtils.generateSlug validatePostForm categoriesProp onSuccess
         w (PostForm.Change PostForm.Title "Hello World") = Some w' →
       slugOf w' = "hello-world")
  ∧ (∀ before v after w t w',
       run PostForm.mount (before ++ PostForm.Change PostForm.Slug v :: after) = Some w →
       noSuccess after = true →
       step w (PostForm.Change PostForm.Title t) = Some w' →
       slugOf w' = slugOf w).
Proof.
  split; [| split].
  - intros events w t w' Hrun Hun Hstep.
    rewrite (step_title_slug _ _ _ _ _ _ _ Hstep).
    by rewrite (run_flag_stays_clear _ _ _ _ events PostForm.mount w eq_refl Hun Hrun).
  - intros events w w' Hrun Hun Hstep.
    rewrite (step_title_slug _ _ _ _ _ _ _ Hstep).
    by rewrite (run_flag_stays_clear _ _ _ _ events PostForm.mount w eq_refl Hun Hrun).
  - intros before v after w t w' Hrun Hno Hstep.
    rewrite run_app in Hrun.
    destruct (run PostForm.mount before) as [w0 |]; [| done].
    rewrite run_cons in Hrun.
    destruct (step w0 (PostForm.Change PostForm.Slug v)) as [w1 |] eqn:Hedit; [| done].
    pose proof (step_flag _ _ _ _ _ _ _ Hedit) as Hset. simpl in Hset.
    rewrite (step_title_slug _ _ _ _ _ _ _ Hstep).
    by rewrite (run_flag_stays_set _ _ _ _ after w1 w Hset Hno Hrun).
Qed.

(** C10.  The success branch of a submission leaves the manual-edit flag
    cleared, whatever it was and however the calls of the branch
    complete, and the next change of the title is handled and derives
    the slug from the title again. *)
Theorem success_resumes_slug_derivation :
  ∀ w result outside w' t,
    success result = true →
    step w (PostForm.Settle (Resolved result) outside) = Some w' →
    PostForm.isSlugManuallyEdited (PostForm.form w') = false
    ∧ ∃ w'', step w' (PostForm.Change PostForm.Title t) = Some w''
             ∧ slugOf w'' = generateSlug t.
Proof.
  intros w result outside w' t Hok Hstep.
  pose proof (step_flag _ _ _ _ _ _ _ Hstep) as Hflag. simpl in Hflag.
  rewrite Hok in Hflag. simpl in Hflag. split; [done |].
  assert (PostForm.isSubmitting (PostForm.form w') = false) as Hidle.
  { simpl in Hstep. destruct (PostForm.awaiting w); [done |].
    rewrite Hok in Hstep. success_paths onSuccess outside;
      simpl in Hstep; by injection Hstep as <-. }
  eexists. split.
  - simpl. by rewrite Hidle.
  - simpl. rewrite change_formData. by rewrite Hflag.
Qed.

End SlugDerivation.

(** Counterexample to C1 as stated: the slug input was changed by hand,
    and a later change of the title updates the slug all the same, the
    submission in between having succeeded. *)
Lemma slug_not_frozen_across_success :
  ∃ w w',
    PostForm.run StringUtils.generateSlug Validation.validatePostForm [] true
      PostForm.mount editThenSucceed = Some w
    ∧ PostForm.step StringUtils.generateSlug Validation.validatePostForm [] true
        w (PostForm.Change PostForm.Title "Hello World") = Some w'
    ∧ PostForm.slug (PostForm.formData (PostForm.form w)) = ""
    ∧ PostForm.slug (PostForm.formData (PostForm.form w')) = "hello-world".
Proof. do 2 eexists. repeat split; vm_compute; reflexivity. Qed.

Lemma slug_follows_title_until_edited_witness :
  (∃ w w',
     PostForm.run StringUtils.generateSlug Validation.validatePostForm [] true
       PostForm.mount [PostForm.Change PostForm.Content "body"] = Some w
     ∧ slugUntouched [PostForm.Change PostForm.Content "body"] = true
     ∧ PostForm.step StringUtils.generateSlug Validation.validatePostForm [] true
         w (PostForm.Change PostForm.Title "Hello World") = Some w'
     ∧ PostForm.slug (PostForm.formData (PostForm.form w')) = "hello-world")
  ∧ (∃ w w',
       PostForm.run StringUtils.generateSlug Validation.validatePostForm [] true
         PostForm.mount
         ([PostForm.Change PostForm.Title "My Post"]
          ++ PostForm.Change PostForm.Slug "custom"
          :: [PostForm.Change PostForm.Content "body";
              PostForm.Submit; PostForm.Settle Rejected calm]) = Some w
       ∧ noSuccess [PostForm.Change PostForm.Content "body";
                    PostForm.Submit; PostForm.Settle Rejected calm] = true
       ∧ PostForm.step StringUtils.generateSlug Validation.validatePostForm [] true
           w (PostForm.Change PostForm.Title "Hello World") = Some w'
       ∧ PostForm.slug (PostForm.formData (PostForm.form w')) = "custom"
       ∧ PostForm.slug (PostForm.formData (PostForm.form w)) = "custom").
Proof.
  destruct (slug_follows_title_until_edited
              StringUtils.generateSlug Validation.validatePostForm [] true)
    as (Hderive & Hhello & Hfrozen).
  split.
  - do 2 eexists.
    split; [vm_compute; reflexivity |].
    split; [reflexivity |].
    split; [vm_compute; reflexivity |].
    eapply Hhello with (events := [PostForm.Change PostForm.Content "body"]);
      vm_compute; reflexivity.
  - do 2 eexists.
    split; [vm_compute; reflexivity |].
    split; [reflexivity |].
    split; [vm_compute; reflexivity |].
    split; [| vm_compute; reflexivity].
    etransitivity.
    + eapply Hfrozen with (before := [PostForm.Change PostForm.Title "My Post"])
                          (v := "custom")
                          (after := [PostForm.Change PostForm.Content "body";
                                     PostForm.Submit; PostForm.Settle Rejected calm]);
        vm_compute; reflexivity.
    + vm_compute; reflexivity.
Defined.

Lemma success_resumes_slug_derivation_witness :
  PostForm.run StringUtils.generateSlug Validation.validatePostForm [] true
    PostForm.mount
    [PostForm.Change PostForm.Title "My Post";
     PostForm.Change PostForm.Slug "custom";
     PostForm.Change PostForm.Content "body";
     PostForm.Submit] = Some draftInFlight
  ∧ PostForm.isSlugManuallyEdited (PostForm.form draftInFlight) = true
  ∧ success created = true
  ∧ ∃ w',
      PostForm.step StringUtils.generateSlug Validation.validatePostForm [] true
        draftInFlight (PostForm.Settle (Resolved created) calm) = Some w'
      ∧ PostForm.isSlugManuallyEdited (PostForm.form w') = false
      ∧ ∃ w'',
          PostForm.step StringUtils.generateSlug Validation.validatePostForm [] true
            w' (PostForm.Change PostForm.Title "Hello World") = Some w''
          ∧ PostForm.slug (PostForm.formData (PostForm.form w''))
            = StringUtils.generateSlug "Hello World".
Proof.
  split; [vm_compute; reflexivity |].
  split; [reflexivity |].
  split; [reflexivity |].
  eexists.
  split; [vm_compute; reflexivity |].
  apply (success_resumes_slug_derivation
           StringUtils.generateSlug Validation.validatePostForm [] true
           draftInFlight created calm);
    [reflexivity | vm_compute; reflexivity].
Defined.

(** ** Banners and calls in flight *)

Section Lifetime.

Variable generateSlug : string → string.
Variable validatePostForm : PostForm.PostFormData → FormErrors.
Variable categoriesProp : list PostForm.Category.
Variable validateLoginForm : LoginForm.LoginFormData → FormErrors.
Variable onSuccess : bool.

Local Abbreviation postStep :=
  (PostForm.step generateSlug validatePostForm categoriesProp onSuccess).
Local Abbreviation postRun :=
  (PostForm.run generateSlug validatePostForm categoriesProp onSuccess).
Local Abbreviation loginStep := (LoginForm.step validateLoginForm onSuccess).
Local Abbreviation loginRun := (LoginForm.run validateLoginForm onSuccess).

(** What the continuation of [handleSubmit] logs is never a call. *)
Lemma post_resume_no_call s o outside :
  calls (PostForm.handleSubmit_resume onSuccess s o outside).2 = 0.
Proof.
  destruct o as [result |]; simpl; [destruct (success result) |]; try done.
  by success_paths onSuccess outside.
Qed.

Lemma login_resume_no_call s o outside :
  calls (LoginForm.handleSubmit_resume onSuccess s o outside).2 = 0.
Proof.
  destruct o as [result |]; simpl; [destruct (success result) |]; try done.
  by success_paths onSuccess outside.
Qed.

Lemma post_busy_no_call w e w' :
  PostForm.isSubmitting (PostForm.form w) = true →
  postStep w e = Some w' →
  calls (PostForm.log w') = calls (PostForm.log w).
Proof.
  intros Hbusy Hstep.
  pose proof (step_enabled _ _ _ _ _ _ _ Hstep) as Hen.
  destruct e; try congruence.
  simpl in Hstep. destruct (PostForm.awaiting w); [done |].
  pose proof (post_resume_no_call (PostForm.form w) o outside) as Hnone.
  destruct (PostForm.handleSubmit_resume _ _ _ _) as [s effects].
  injection Hstep as <-. simpl in *. rewrite calls_app. lia.
Qed.

Lemma login_busy_no_call w e w' :
  LoginForm.isSubmitting (LoginForm.form w) = true →
  loginStep w e = Some w' →
  calls (LoginForm.log w') = calls (LoginForm.log w).
Proof.
  intros Hbusy Hstep.
  pose proof (login_step_enabled _ _ _ _ _ Hstep) as Hen.
  destruct e; try congruence.
  simpl in Hstep. destruct (LoginForm.awaiting w); [done |].
  pose proof (login_resume_no_call (LoginForm.form w) o outside) as Hnone.
  destruct (LoginForm.handleSubmit_resume _ _ _ _) as [s effects].
  injection Hstep as <-. simpl in *. rewrite calls_app. lia.
Qed.

(** While no call of a success branch throws, one event keeps the
    banners apart. *)
Lemma step_exclusive w e w' :
  PostInvariant w →
  PostForm.serverError (PostForm.form w) = ""
  ∨ PostForm.successMessage (PostForm.form w) = "" →
  callsReturn onSuccess e = true →
  postStep w e = Some w' →
  PostForm.serverError (PostForm.form w') = ""
  ∨ PostForm.successMessage (PostForm.form w') = "".
Proof.
  intros [Hfl Hq Hbl] Hex Hcalm Hstep.
  pose proof (step_enabled _ _ _ _ _ _ _ Hstep) as Hen.
  destruct e; simpl in Hstep, Hen.
  - replace (PostForm.inputDisabled _ f) with (PostForm.isSubmitting (PostForm.form w))
      in Hstep by (by destruct f).
    rewrite Hen in Hstep. injection Hstep as <-. simpl.
    left. apply change_serverError.
  - destruct (PostForm.checkboxEnabled _ _); [| done]. by injection Hstep as <-.
  - rewrite Hen in Hstep. unfold PostForm.handleSubmit in Hstep.
    destruct (Nat.ltb 0 _); injection Hstep as <-; by left.
  - rewrite Hen in Hstep. injection Hstep as <-. by left.
  - destruct (PostForm.awaiting w) as [| call rest] eqn:Haw; [done |].
    destruct (PostForm.isSubmitting (PostForm.form w)) eqn:Hsub; [| done].
    destruct (Hq eq_refl) as [Herr Hok].
    unfold PostForm.handleSubmit_resume in Hstep.
    unfold callsReturn, successThrows in Hcalm.
    destruct o as [result |]; simpl in Hcalm;
      [destruct (success result); [success_paths onSuccess outside |] |];
      simpl in Hstep, Hcalm; try discriminate Hcalm;
      injection Hstep as <-; simpl; auto.
Qed.

Lemma run_exclusive events : ∀ w w',
  PostInvariant w →
  PostForm.serverError (PostForm.form w) = ""
  ∨ PostForm.successMessage (PostForm.form w) = "" →
  noThrow onSuccess events = true →
  postRun w events = Some w' →
  PostForm.serverError (PostForm.form w') = ""
  ∨ PostForm.successMessage (PostForm.form w') = "".
Proof.
  induction events as [| e events IH]; intros w w' Hinv Hex Hcalm Hrun;
    simpl in Hrun, Hcalm.
  - by injection Hrun as <-.
  - apply andb_true_iff in Hcalm as [He Hcalm].
    destruct (postStep w e) as [w1 |] eqn:Hstep; [| done].
    apply (IH w1 w'); [| | done | done].
    + by eapply step_invariant.
    + by eapply step_exclusive.
Qed.

(** X23.  At every point of the lifetime of a PostForm up to which no
    call of a success branch ([onSuccess], the reload) has thrown, at
    most one of [serverError] and [successMessage] is a non-empty
    string, and the markup shows the error panel or the success panel
    and never both. *)
Theorem banners_exclusive_while_calls_return :
  ∀ events w,
    postRun PostForm.mount events = Some w →
    noThrow onSuccess events = true →
    (PostForm.serverError (PostForm.form w) = ""
     ∨ PostForm.successMessage (PostForm.form w) = "")
    ∧ (PostForm.errorPanel (PostForm.render categoriesProp (PostForm.form w)) = None
       ∨ PostForm.successPanel (PostForm.render categoriesProp (PostForm.form w)) = None).
Proof.
  intros events w Hrun Hcalm.
  assert (PostForm.serverError (PostForm.form w) = ""
          ∨ PostForm.successMessage (PostForm.form w) = "") as Hex.
  { apply (run_exclusive events PostForm.mount w); auto using mount_invariant. }
  split; [exact Hex |].
  destruct Hex as [H | H]; simpl; rewrite H; auto.
Qed.

(** C7.  In both forms, after any sequence of events from the mount:
    at most one call of the server action awaits its answer, one does
    exactly when [isSubmitting] is set, and while it is set the submit
    button is disabled, so a submit event is not handled, and no event
    that is handled adds a call to the log. *)
Theorem single_call_in_flight :
  (∀ events w,
     postRun PostForm.mount events = Some w →
     (length (PostForm.awaiting w) ≤ 1)%nat
     ∧ (PostForm.isSubmitting (PostForm.form w) = true ↔ PostForm.awaiting w ≠ [])
     ∧ (PostForm.isSubmitting (PostForm.form w) = true →
        PostForm.submitDisabled (PostForm.render categoriesProp (PostForm.form w)) = true
        ∧ postStep w PostForm.Submit = None
        ∧ ∀ e w', postStep w e = Some w' →
                  calls (PostForm.log w') = calls (PostForm.log w)))
  ∧ (∀ events w,
       loginRun LoginForm.mount events = Some w →
       (length (LoginForm.awaiting w) ≤ 1)%nat
       ∧ (LoginForm.isSubmitting (LoginForm.form w) = true ↔ LoginForm.awaiting w ≠ [])
       ∧ (LoginForm.isSubmitting (LoginForm.form w) = true →
          LoginForm.submitDisabled (LoginForm.render (LoginForm.form w)) = true
          ∧ loginStep w LoginForm.Submit = None
          ∧ ∀ e w', loginStep w e = Some w' →
                    calls (LoginForm.log w') = calls (LoginForm.log w))).
Proof.
  split.
  - intros events w Hrun.
    pose proof (run_invariant _ _ _ _ events _ _ mount_invariant Hrun) as [Hfl _ _].
    destruct (PostForm.isSubmitting (PostForm.form w)) eqn:Hbusy.
    + split; [lia |]. split.
      * split; [intros _ Hnil; by rewrite Hnil in Hfl | done].
      * intros _. split; [done |]. split; [simpl; by rewrite Hbusy |].
        intros e w'. by apply post_busy_no_call.
    + split; [lia |]. split; [| done].
      split; [done |]. intros Hne. by destruct (PostForm.awaiting w).
  - intros events w Hrun.
    assert (LoginInvariant LoginForm.mount) as Hmount by done.
    pose proof (login_run_invariant _ _ events _ _ Hmount Hrun) as Hfl.
    unfold LoginInvariant in Hfl.
    destruct (LoginForm.isSubmitting (LoginForm.form w)) eqn:Hbusy.
    + split; [lia |]. split.
      * split; [intros _ Hnil; by rewrite Hnil in Hfl | done].
      * intros _. split; [done |]. split; [simpl; by rewrite Hbusy |].
        intros e w'. by apply login_busy_no_call.
    + split; [lia |]. split; [| done].
      split; [done |]. intros Hne. by destruct (LoginForm.awaiting w).
Qed.

End Lifetime.

(** C2, at the input that breaks it.  A PostForm is given an [onSuccess]
    that throws; a draft is typed in and submitted, and [createPost]
    answers [success = true].  The success message is set, the callback
    is called and throws, and the [catch] sets [serverError] beside it:
    both are non-empty, both panels are in the markup, and the reload
    was not reached. *)
Theorem both_banners_when_onSuccess_throws :
  ∃ w,
    PostForm.run StringUtils.generateSlug Validation.validatePostForm [] true
      PostForm.mount
      (draftTrace ++ [PostForm.Submit; PostForm.Settle (Resolved created) stormy])
    = Some w
    ∧ PostForm.serverError (PostForm.form w) = "An unexpected error occurred"
    ∧ PostForm.successMessage (PostForm.form w) = "Post created successfully!"
    ∧ PostForm.errorPanel (PostForm.render [] (PostForm.form w))
      = Some "An unexpected error occurred"
    ∧ PostForm.successPanel (PostForm.render [] (PostForm.form w))
      = Some "Post created successfully!"
    ∧ PostForm.log w = [CallAction draft; CallOnSuccess].
Proof. eexists. split; [vm_compute; reflexivity |]. repeat split. Qed.

Lemma banners_exclusive_while_calls_return_witness :
  ∃ w,
    PostForm.run StringUtils.generateSlug Validation.validatePostForm [] true
      PostForm.mount editThenSucceed = Some w
    ∧ noThrow true editThenSucceed = true
    ∧ PostForm.successMessage (PostForm.form w) = "Post created successfully!"
    ∧ (PostForm.serverError (PostForm.form w) = ""
       ∨ PostForm.successMessage (PostForm.form w) = "")
    ∧ (PostForm.errorPanel (PostForm.render [] (PostForm.form w)) = None
       ∨ PostForm.successPanel (PostForm.render [] (PostForm.form w)) = None).
Proof.
  eexists.
  split; [vm_compute; reflexivity |].
  split; [reflexivity |].
  split; [reflexivity |].
  apply (banners_exclusive_while_calls_return
           StringUtils.generateSlug Validation.validatePostForm [] true
           editThenSucceed); [vm_compute; reflexivity | reflexivity].
Defined.

Lemma single_call_in_flight_witness :
  (PostForm.run StringUtils.generateSlug Validation.validatePostForm [] true
     PostForm.mount
     [PostForm.Change PostForm.Title "My Post";
      PostForm.Change PostForm.Slug "custom";
      PostForm.Change PostForm.Content "body";
      PostForm.Submit] = Some draftInFlight
   ∧ (length (PostForm.awaiting draftInFlight) ≤ 1)%nat
   ∧ PostForm.step StringUtils.generateSlug Validation.validatePostForm [] true
       draftInFlight PostForm.Submit = None)
  ∧ (LoginForm.run Validation.validateLoginForm true LoginForm.mount loginTrace
     = Some loginInFlight
     ∧ (length (LoginForm.awaiting loginInFlight) ≤ 1)%nat
     ∧ LoginForm.step Validation.validateLoginForm true loginInFlight LoginForm.Submit
       = None).
Proof.
  destruct (single_call_in_flight
              StringUtils.generateSlug Validation.validatePostForm []
              Validation.validateLoginForm true) as [Hpost Hlogin].
  split.
  - assert (PostForm.run StringUtils.generateSlug Validation.validatePostForm [] true
              PostForm.mount
              [PostForm.Change PostForm.Title "My Post";
               PostForm.Change PostForm.Slug "custom";
               PostForm.Change PostForm.Content "body";
               PostForm.Submit] = Some draftInFlight) as Hrun
      by (vm_compute; reflexivity).
    destruct (Hpost _ _ Hrun) as (Hone & _ & Hbusy).
    destruct (Hbusy eq_refl) as (_ & Hsubmit & _).
    auto.
  - assert (LoginForm.run Validation.validateLoginForm true LoginForm.mount loginTrace
            = Some loginInFlight) as Hrun
      by (vm_compute; reflexivity).
    destruct (Hlogin _ _ Hrun) as (Hone & _ & Hbusy).
    destruct (Hbusy eq_refl) as (_ & Hsubmit & _).
    auto.
Defined.

(** ** Validation, submission and its outcomes *)

Section Submission.

Variable generateSlug : string → string.
Variable validatePostForm : PostForm.PostFormData → FormErrors.
Variable categoriesProp : list PostForm.Category.
Variable validateLoginForm : LoginForm.LoginFormData → FormErrors.
Variable onSuccess : bool.

Local Abbreviation postStep :=
  (PostForm.step generateSlug validatePostForm categoriesProp onSuccess).
Local Abbreviation postRun :=
  (PostForm.run generateSlug validatePostForm categoriesProp onSuccess).
Local Abbreviation loginStep := (LoginForm.step validateLoginForm onSuccess).
Local Abbreviation loginRun := (LoginForm.run validateLoginForm onSuccess).

Lemma post_submit_invalid s :
  (0 < JS.keys_length (validatePostForm (PostForm.formData s)))%nat →
  PostForm.handleSubmit validatePostForm s =
    (PostForm.setErrors (validatePostForm (PostForm.formData s))
       (PostForm.setSuccessMessage "" (PostForm.setServerError "" s)),
     None).
Proof.
  intros Hkeys. unfold PostForm.handleSubmit.
  apply Nat.ltb_lt in Hkeys. by rewrite Hkeys.
Qed.

Lemma post_submit_valid s :
  JS.keys_length (validatePostForm (PostForm.formData s)) = 0 →
  PostForm.handleSubmit validatePostForm s =
    (PostForm.setIsSubmitting true
       (PostForm.setSuccessMessage "" (PostForm.setServerError "" s)),
     Some (PostForm.formData s)).
Proof. intros Hkeys. unfold PostForm.handleSubmit. by rewrite Hkeys. Qed.

Lemma post_submit_call s s' data :
  PostForm.handleSubmit validatePostForm s = (s', Some data) →
  data = PostForm.formData s ∧ JS.keys_length (validatePostForm data) = 0.
Proof.
  unfold PostForm.handleSubmit.
  destruct (Nat.ltb 0 _) eqn:E; intros [= <- <-].
  apply Nat.ltb_ge in E. split; [done | lia].
Qed.

Lemma login_submit_invalid s :
  (0 < JS.keys_length (validateLoginForm (LoginForm.formData s)))%nat →
  LoginForm.handleSubmit validateLoginForm s =
    (LoginForm.setErrors (validateLoginForm (LoginForm.formData s))
       (LoginForm.setServerError "" s),
     None).
Proof.
  intros Hkeys. unfold LoginForm.handleSubmit.
  apply Nat.ltb_lt in Hkeys. by rewrite Hkeys.
Qed.

Lemma login_submit_valid s :
  JS.keys_length (validateLoginForm (LoginForm.formData s)) = 0 →
  LoginForm.handleSubmit validateLoginForm s =
    (LoginForm.setIsSubmitting true (LoginForm.setServerError "" s),
     Some (LoginForm.email (LoginForm.formData s),
           LoginForm.password (LoginForm.formData s))).
Proof. intros Hkeys. unfold LoginForm.handleSubmit. by rewrite Hkeys. Qed.

Lemma login_submit_call s s' credentials :
  LoginForm.handleSubmit validateLoginForm s = (s', Some credentials) →
  credentials = (LoginForm.email (LoginForm.formData s),
                 LoginForm.password (LoginForm.formData s))
  ∧ JS.keys_length (validateLoginForm (LoginForm.formData s)) = 0.
Proof.
  unfold LoginForm.handleSubmit.
  destruct (Nat.ltb 0 _) eqn:E; intros [= <- <-].
  apply Nat.ltb_ge in E. split; [done | lia].
Qed.

(** C3.  In both forms, for every state whose form data the validation
    function maps to an error mapping with at least one key: the
    synchronous part of [handleSubmit] stores that mapping as the field
    errors and ends there, with no call of the server action, the form
    data and the submitting flag untouched; as a step of the form the
    submission adds nothing to the log and awaits nothing.  And the
    action is only ever called with form data that validation has
    mapped to the empty mapping. *)
Theorem validation_blocks_submission :
  (∀ s,
     (0 < JS.keys_length (validatePostForm (PostForm.formData s)))%nat →
     (∃ s', PostForm.handleSubmit validatePostForm s = (s', None)
            ∧ PostForm.errors s' = validatePostForm (PostForm.formData s)
            ∧ PostForm.formData s' = PostForm.formData s
            ∧ PostForm.isSubmitting s' = PostForm.isSubmitting s)
     ∧ ∀ w w', PostForm.form w = s → postStep w PostForm.Submit = Some w' →
               PostForm.log w' = PostForm.log w
               ∧ PostForm.awaiting w' = PostForm.awaiting w)
  ∧ (∀ s s' data,
       PostForm.handleSubmit validatePostForm s = (s', Some data) →
       data = PostForm.formData s ∧ JS.keys_length (validatePostForm data) = 0)
  ∧ (∀ s,
       (0 < JS.keys_length (validateLoginForm (LoginForm.formData s)))%nat →
       (∃ s', LoginForm.handleSubmit validateLoginForm s = (s', None)
              ∧ LoginForm.errors s' = validateLoginForm (LoginForm.formData s)
              ∧ LoginForm.formData s' = LoginForm.formData s
              ∧ LoginForm.isSubmitting s' = LoginForm.isSubmitting s)
       ∧ ∀ w w', LoginForm.form w = s → loginStep w LoginForm.Submit = Some w' →
                 LoginForm.log w' = LoginForm.log w
                 ∧ LoginForm.awaiting w' = LoginForm.awaiting w)
  ∧ (∀ s s' credentials,
       LoginForm.handleSubmit validateLoginForm s = (s', Some credentials) →
       credentials = (LoginForm.email (LoginForm.formData s),
                      LoginForm.password (LoginForm.formData s))
       ∧ JS.keys_length (validateLoginForm (LoginForm.formData s)) = 0).
Proof.
  split; [| split; [| split]].
  - intros s Hkeys. split.
    + eexists. by split; [apply post_submit_invalid |].
    + intros w w' <- Hstep. simpl in Hstep.
      destruct (PostForm.isSubmitting _); [done |].
      rewrite (post_submit_invalid _ Hkeys) in Hstep.
      injection Hstep as <-. simpl. by rewrite !app_nil_r.
  - apply post_submit_call.
  - intros s Hkeys. split.
    + eexists. by split; [apply login_submit_invalid |].
    + intros w w' <- Hstep. simpl in Hstep.
      destruct (LoginForm.isSubmitting _); [done |].
      rewrite (login_submit_invalid _ Hkeys) in Hstep.
      injection Hstep as <-. simpl. by rewrite !app_nil_r.
  - apply login_submit_call.
Qed.

(** A settlement that is a failure writes the banner and clears the
    submitting flag, and nothing else. *)
Lemma post_resume_failed s o outside :
  failed o = true →
  PostForm.handleSubmit_resume onSuccess s o outside =
    (PostForm.setIsSubmitting false
       (PostForm.setServerError (PostForm.failureMessage o) s), []).
Proof.
  destruct o as [result |]; simpl; [| done].
  by destruct (success result).
Qed.

Lemma login_resume_failed s o outside :
  failed o = true →
  LoginForm.handleSubmit_resume onSuccess s o outside =
    (LoginForm.setIsSubmitting false
       (LoginForm.setServerError (LoginForm.failureMessage o) s), []).
Proof.
  destruct o as [result |]; simpl; [| done].
  by destruct (success result).
Qed.

(** Over a form that validation lets through there is no success
    banner, when validation asks for a title. *)
Lemma valid_form_has_no_success_banner w :
  PostInvariant w →
  (∀ data, PostForm.title data = "" →
           (0 < JS.keys_length (validatePostForm data))%nat) →
  JS.keys_length (validatePostForm (PostForm.formData (PostForm.form w))) = 0 →
  PostForm.successMessage (PostForm.form w) = "".
Proof.
  intros Hinv Htitle Hvalid.
  destruct (decide (PostForm.successMessage (PostForm.form w) = "")) as [| Hne]; [done |].
  destruct (post_success_blank _ Hinv Hne) as [Hblank _].
  specialize (Htitle _ Hblank). lia.
Qed.

(** C4.  A submission that validation lets through and whose server
    action answers [success = false] or throws: in a PostForm, at any
    point of its lifetime, the form data, the field errors and the
    manual-edit flag are after the submission what they were before it,
    the submitting flag is back to [false], the error banner holds the
    message of the failure, and (validation asking for a title, as the
    spec says) the success banner is what it was, namely empty; in a
    LoginForm the state after the submission is the state before it
    with the error banner set. *)
Theorem failed_submission_keeps_fields :
  (∀ events w w1 o outside w2,
     postRun PostForm.mount events = Some w →
     JS.keys_length (validatePostForm (PostForm.formData (PostForm.form w))) = 0 →
     postStep w PostForm.Submit = Some w1 →
     failed o = true →
     postStep w1 (PostForm.Settle o outside) = Some w2 →
     PostForm.formData (PostForm.form w2) = PostForm.formData (PostForm.form w)
     ∧ PostForm.errors (PostForm.form w2) = PostForm.errors (PostForm.form w)
     ∧ PostForm.isSlugManuallyEdited (PostForm.form w2)
       = PostForm.isSlugManuallyEdited (PostForm.form w)
     ∧ PostForm.isSubmitting (PostForm.form w1) = true
     ∧ PostForm.isSubmitting (PostForm.form w2) = false
     ∧ PostForm.serverError (PostForm.form w2) = PostForm.failureMessage o
     ∧ ((∀ data, PostForm.title data = "" →
                 (0 < JS.keys_length (validatePostForm data))%nat) →
        PostForm.form w2 =
          PostForm.setServerError (PostForm.failureMessage o) (PostForm.form w)))
  ∧ (∀ w w1 o outside w2,
       JS.keys_length (validateLoginForm (LoginForm.formData (LoginForm.form w))) = 0 →
       loginStep w LoginForm.Submit = Some w1 →
       failed o = true →
       loginStep w1 (LoginForm.Settle o outside) = Some w2 →
       LoginForm.formData (LoginForm.form w2) = LoginForm.formData (LoginForm.form w)
       ∧ LoginForm.isSubmitting (LoginForm.form w1) = true
       ∧ LoginForm.form w2 =
           LoginForm.setServerError (LoginForm.failureMessage o) (LoginForm.form w)).
Proof.
  split.
  - intros events w w1 o outside w2 Hrun Hvalid Hsubmit Hfail Hsettle.
    pose proof (run_invariant _ _ _ _ events _ _ mount_invariant Hrun) as Hinv.
    pose proof (step_enabled _ _ _ _ _ _ _ Hsubmit) as Hidle. simpl in Hidle.
    simpl in Hsubmit. rewrite Hidle, (post_submit_valid _ Hvalid) in Hsubmit.
    injection Hsubmit as <-.
    simpl in Hsettle.
    destruct (PostForm.awaiting w ++ _) as [| call rest]; [done |].
    rewrite (post_resume_failed _ _ _ Hfail) in Hsettle.
    injection Hsettle as <-. simpl.
    repeat (split; [done |]).
    intros Htitle.
    pose proof (valid_form_has_no_success_banner _ Hinv Htitle Hvalid) as Hnone.
    destruct w as [[data errs busy err ok edited] aw lg]. simpl in *. by subst.
  - intros w w1 o outside w2 Hvalid Hsubmit Hfail Hsettle.
    pose proof (login_step_enabled _ _ _ _ _ Hsubmit) as Hidle. simpl in Hidle.
    simpl in Hsubmit. rewrite Hidle, (login_submit_valid _ Hvalid) in Hsubmit.
    injection Hsubmit as <-.
    simpl in Hsettle.
    destruct (LoginForm.awaiting w ++ _) as [| call rest]; [done |].
    rewrite (login_resume_failed _ _ _ Hfail) in Hsettle.
    injection Hsettle as <-. simpl.
    repeat (split; [done |]).
    destruct w as [[data errs busy err] aw lg]. simpl in *. by subst.
Qed.

(** C5, as amended.  When the server action answers [success = true],
    whether or not the calls of the success branch then throw: both
    forms call [onSuccess], if the parent passed one, before anything
    else they ask of the outside; PostForm resets its form data to the
    empty defaults, LoginForm leaves its form data as it was
    entered. *)
Theorem success_signals_parent :
  (∀ w result outside w',
     success result = true →
     postStep w (PostForm.Settle (Resolved result) outside) = Some w' →
     PostForm.formData (PostForm.form w') = PostForm.emptyForm
     ∧ ∃ then_, PostForm.log w' = PostForm.log w ++ call_optional onSuccess ++ then_)
  ∧ (∀ w result outside w',
       success result = true →
       loginStep w (LoginForm.Settle (Resolved result) outside) = Some w' →
       LoginForm.formData (LoginForm.form w') = LoginForm.formData (LoginForm.form w)
       ∧ ∃ then_, LoginForm.log w' = LoginForm.log w ++ call_optional onSuccess ++ then_).
Proof.
  split.
  - intros w result outside w' Hok Hstep. simpl in Hstep.
    destruct (PostForm.awaiting w); [done |].
    rewrite Hok in Hstep.
    success_paths onSuccess outside; simpl in Hstep; injection Hstep as <-;
      (split; [done |]); simpl; eauto.
  - intros w result outside w' Hok Hstep. simpl in Hstep.
    destruct (LoginForm.awaiting w); [done |].
    rewrite Hok in Hstep.
    success_paths onSuccess outside; simpl in Hstep; injection Hstep as <-;
      (split; [done |]); simpl; eauto.
Qed.

(** C6.  In both forms, a change event on a field whose error entry is
    set (a non-empty message) leaves that entry [undefined] and every
    other key of the error mapping as it was. *)
Theorem change_clears_only_its_error :
  (∀ s f v,
     JS.truthy_opt (JS.get (PostForm.errors s) (PostForm.name f)) = true →
     JS.get (PostForm.errors (PostForm.handleChange generateSlug s f v)) (PostForm.name f)
     = None
     ∧ ∀ k, k ≠ PostForm.name f →
            PostForm.errors (PostForm.handleChange generateSlug s f v) !! k
            = PostForm.errors s !! k)
  ∧ (∀ s f v,
       JS.truthy_opt (JS.get (LoginForm.errors s) (LoginForm.name f)) = true →
       JS.get (LoginForm.errors (LoginForm.handleChange s f v)) (LoginForm.name f) = None
       ∧ ∀ k, k ≠ LoginForm.name f →
              LoginForm.errors (LoginForm.handleChange s f v) !! k
              = LoginForm.errors s !! k).
Proof.
  split.
  - intros s f v Herr. rewrite change_errors, Herr. split.
    + apply get_insert_undefined.
    + intros k Hk. by apply lookup_insert_ne.
  - intros s f v Herr. rewrite login_change_errors, Herr. split.
    + apply get_insert_undefined.
    + intros k Hk. by apply lookup_insert_ne.
Qed.


End Submission.

(** ** Category selection *)

Lemma toggle_absent (l : list string) (x : string) :
  x ∉ l → PostForm.toggle l x = l ++ [x].
Proof.
  intros Hx. unfold PostForm.toggle.
  destruct (JS.includes l x) eqn:E; [| done].
  by apply includes_elem_of in E.
Qed.

Lemma toggle_present (l : list string) (x y : string) :
  x ∈ l → y ∈ PostForm.toggle l x ↔ y ∈ l ∧ y ≠ x.
Proof.
  intros Hx. unfold PostForm.toggle.
  apply includes_elem_of in Hx as ->.
  rewrite !list_elem_of_In, filter_In, negb_true_iff, String.eqb_neq.
  reflexivity.
Qed.

Lemma toggle_twice (l : list string) (x y : string) :
  y ∈ PostForm.toggle (PostForm.toggle l x) x ↔ y ∈ l.
Proof.
  destruct (decide (x ∈ l)) as [Hx | Hx].
  - assert (x ∉ PostForm.toggle l x) as Hgone
      by (rewrite toggle_present by done; tauto).
    rewrite (toggle_absent _ _ Hgone), elem_of_app, list_elem_of_singleton.
    rewrite toggle_present by done.
    destruct (decide (y = x)) as [-> | Hy]; tauto.
  - rewrite (toggle_absent _ _ Hx).
    rewrite toggle_present by (apply elem_of_app; right; by apply list_elem_of_singleton).
    rewrite elem_of_app, list_elem_of_singleton.
    split; [tauto |]. intros Hy. split; [tauto | by intros ->].
Qed.

(** C9.  For every list of selected categories and every category id:
    a toggle appends the id when the list does not hold it, and when
    the list holds it the toggle leaves no occurrence of it and keeps
    the other ids; two toggles of the same id give a list with the
    elements of the first one, so the same set of selected categories;
    and [handleCategoryToggle] does this to the [categories] of the
    form data (read as [[]] when [undefined]), leaving the other fields
    of the form alone. *)
Theorem toggle_category_twice_same_set :
  ∀ (l : list string) (x : string),
    (x ∉ l → PostForm.toggle l x = l ++ [x])
    ∧ (x ∈ l →
       (x ∉ PostForm.toggle l x)
       ∧ ∀ y, y ≠ x → (y ∈ PostForm.toggle l x ↔ y ∈ l))
    ∧ (∀ y, y ∈ PostForm.toggle (PostForm.toggle l x) x ↔ y ∈ l)
    ∧ (list_to_set (PostForm.toggle (PostForm.toggle l x) x) : gset string)
      = list_to_set l
    ∧ (∀ s,
         JS.or_empty (PostForm.categories (PostForm.formData s)) = l →
         PostForm.handleCategoryToggle s x =
           PostForm.setFormData
             (PostForm.assignCategories (PostForm.formData s) (PostForm.toggle l x)) s).
Proof.
  intros l x. split; [apply toggle_absent |]. split; [| split; [| split]].
  - intros Hx. split.
    + rewrite toggle_present by done. tauto.
    + intros y Hy. rewrite toggle_present by done. tauto.
  - apply toggle_twice.
  - apply set_eq. intros y. rewrite !elem_of_list_to_set. apply toggle_twice.
  - intros s <-. reflexivity.
Qed.

Lemma toggle_category_twice_same_set_witness :
  "news" ∈ ["news"; "tech"; "news"]
  ∧ PostForm.toggle ["news"; "tech"; "news"] "news" = ["tech"]
  ∧ ("news" ∉ PostForm.toggle ["news"; "tech"; "news"] "news")
  ∧ PostForm.toggle (PostForm.toggle ["news"; "tech"; "news"] "news") "news"
    = ["tech"; "news"]
  ∧ (list_to_set (PostForm.toggle (PostForm.toggle ["news"; "tech"; "news"] "news") "news")
       : gset string)
    = list_to_set ["news"; "tech"; "news"].
Proof.
  destruct (toggle_category_twice_same_set ["news"; "tech"; "news"] "news")
    as (_ & Hpresent & _ & Hset & _).
  assert ("news" ∈ ["news"; "tech"; "news"]) as Hin by (apply list_elem_of_here).
  split; [exact Hin |].
  split; [reflexivity |].
  split; [exact (proj1 (Hpresent Hin)) |].
  split; [reflexivity | exact Hset].
Defined.

(** The validation of the spec asks for a title. *)
Lemma validatePostForm_requires_title data :
  PostForm.title data = "" →
  (0 < JS.keys_length (Validation.validatePostForm data))%nat.
Proof.
  intros Htitle. unfold Validation.validatePostForm.
  unfold Validation.required at 1. rewrite Htitle. simpl.
  unfold JS.keys_length.
  assert (size (<["title" := Some "Title is required"]>
                  (Validation.required "content" (PostForm.content data)
                     "Content is required" ∅)) ≠ 0)
    by (apply map_size_non_empty_iff, insert_non_empty).
  lia.
Qed.

Lemma validation_blocks_submission_witness :
  ((0 < JS.keys_length
          (Validation.validatePostForm (PostForm.formData PostForm.initial)))%nat
   ∧ PostForm.title (PostForm.formData PostForm.initial) = ""
   ∧ PostForm.content (PostForm.formData PostForm.initial) = ""
   ∧ ∃ s', PostForm.handleSubmit Validation.validatePostForm PostForm.initial = (s', None)
           ∧ PostForm.errors s'
             = Validation.validatePostForm (PostForm.formData PostForm.initial)
           ∧ PostForm.formData s' = PostForm.formData PostForm.initial
           ∧ PostForm.isSubmitting s' = PostForm.isSubmitting PostForm.initial)
  ∧ ((0 < JS.keys_length
            (Validation.validateLoginForm (LoginForm.formData LoginForm.initial)))%nat
     ∧ ∃ s', LoginForm.handleSubmit Validation.validateLoginForm LoginForm.initial
             = (s', None)
             ∧ LoginForm.errors s'
               = Validation.validateLoginForm (LoginForm.formData LoginForm.initial)
             ∧ LoginForm.formData s' = LoginForm.formData LoginForm.initial
             ∧ LoginForm.isSubmitting s' = LoginForm.isSubmitting LoginForm.initial).
Proof.
  destruct (validation_blocks_submission
              StringUtils.generateSlug Validation.validatePostForm []
              Validation.validateLoginForm true)
    as (Hpost & _ & Hlogin & _).
  assert (0 < JS.keys_length
                (Validation.validatePostForm (PostForm.formData PostForm.initial)))%nat
    as Hkeys by (vm_compute; lia).
  assert (0 < JS.keys_length
                (Validation.validateLoginForm (LoginForm.formData LoginForm.initial)))%nat
    as Hkeys' by (vm_compute; lia).
  split.
  - split; [exact Hkeys |]. split; [reflexivity |]. split; [reflexivity |].
    exact (proj1 (Hpost PostForm.initial Hkeys)).
  - split; [exact Hkeys' |].
    exact (proj1 (Hlogin LoginForm.initial Hkeys')).
Defined.

Lemma failed_submission_keeps_fields_witness :
  (PostForm.run StringUtils.generateSlug Validation.validatePostForm [] true
     PostForm.mount draftTrace = Some draftReady
   ∧ PostForm.step StringUtils.generateSlug Validation.validatePostForm [] true
       draftReady PostForm.Submit = Some draftInFlight
   ∧ failed (Resolved refused) = true
   ∧ ∃ w2,
       PostForm.step StringUtils.generateSlug Validation.validatePostForm [] true
         draftInFlight (PostForm.Settle (Resolved refused) calm) = Some w2
       ∧ PostForm.formData (PostForm.form w2) = draft
       ∧ PostForm.form w2
         = PostForm.setServerError "Slug is already taken" (PostForm.form draftReady))
  ∧ (LoginForm.step Validation.validateLoginForm true loginReady LoginForm.Submit
     = Some loginInFlight
     ∧ failed Rejected = true
     ∧ ∃ w2,
         LoginForm.step Validation.validateLoginForm true
           loginInFlight (LoginForm.Settle Rejected calm) = Some w2
         ∧ LoginForm.form w2
           = LoginForm.setServerError "An unexpected error occurred"
               (LoginForm.form loginReady)).
Proof.
  destruct (failed_submission_keeps_fields
              StringUtils.generateSlug Validation.validatePostForm []
              Validation.validateLoginForm true) as [Hpost Hlogin].
  split.
  - assert (PostForm.run StringUtils.generateSlug Validation.validatePostForm [] true
              PostForm.mount draftTrace = Some draftReady) as Hrun
      by (vm_compute; reflexivity).
    assert (PostForm.step StringUtils.generateSlug Validation.validatePostForm [] true
              draftReady PostForm.Submit = Some draftInFlight) as Hsubmit
      by (vm_compute; reflexivity).
    split; [exact Hrun |]. split; [exact Hsubmit |]. split; [reflexivity |].
    eexists. split; [vm_compute; reflexivity |].
    edestruct (Hpost draftTrace draftReady draftInFlight (Resolved refused) calm)
      as (Hdata & _ & _ & _ & _ & _ & Hform);
      [exact Hrun | vm_compute; reflexivity | exact Hsubmit | reflexivity
      | vm_compute; reflexivity |].
    split; [exact Hdata |].
    apply Hform, validatePostForm_requires_title.
  - assert (LoginForm.step Validation.validateLoginForm true loginReady LoginForm.Submit
            = Some loginInFlight) as Hsubmit
      by (vm_compute; reflexivity).
    split; [exact Hsubmit |]. split; [reflexivity |].
    eexists. split; [vm_compute; reflexivity |].
    edestruct (Hlogin loginReady loginInFlight Rejected calm)
      as (_ & _ & Hform);
      [vm_compute; reflexivity | exact Hsubmit | reflexivity
      | vm_compute; reflexivity |].
    exact Hform.
Defined.

(** Counterexample to C5 as stated: a login that succeeds leaves the
    email and the password in the form data. *)
Lemma login_success_keeps_credentials :
  ∃ w',
    LoginForm.run Validation.validateLoginForm true LoginForm.mount
      (loginTrace ++ [LoginForm.Settle (Resolved created) calm]) = Some w'
    ∧ success created = true
    ∧ LoginForm.formData (LoginForm.form w')
      = {| LoginForm.email := "editor@example.org"; LoginForm.password := "secret" |}
    ∧ LoginForm.formData (LoginForm.form w') ≠ LoginForm.formData LoginForm.initial
    ∧ LoginForm.log w'
      = [CallAction ("editor@example.org", "secret"); CallOnSuccess; Reload].
Proof.
  eexists. split; [vm_compute; reflexivity |].
  split; [reflexivity |]. split; [reflexivity |]. split; [discriminate | reflexivity].
Qed.

Lemma success_signals_parent_witness :
  (success created = true
   ∧ ∃ w',
       PostForm.step StringUtils.generateSlug Validation.validatePostForm [] true
         draftInFlight (PostForm.Settle (Resolved created) stormy) = Some w'
       ∧ PostForm.formData (PostForm.form w') = PostForm.emptyForm
       ∧ ∃ then_,
           PostForm.log w' = PostForm.log draftInFlight ++ call_optional true ++ then_)
  ∧ (∃ w',
       LoginForm.step Validation.validateLoginForm true
         loginInFlight (LoginForm.Settle (Resolved created) calm) = Some w'
       ∧ LoginForm.formData (LoginForm.form w')
         = LoginForm.formData (LoginForm.form loginInFlight)
       ∧ ∃ then_,
           LoginForm.log w' = LoginForm.log loginInFlight ++ call_optional true ++ then_).
Proof.
  destruct (success_signals_parent
              StringUtils.generateSlug Validation.validatePostForm []
              Validation.validateLoginForm true) as [Hpost Hlogin].
  split.
  - split; [reflexivity |].
    eexists. split; [vm_compute; reflexivity |].
    apply (Hpost draftInFlight created stormy); [reflexivity | vm_compute; reflexivity].
  - eexists. split; [vm_compute; reflexivity |].
    apply (Hlogin loginInFlight created calm); [reflexivity | vm_compute; reflexivity].
Defined.

Lemma change_clears_only_its_error_witness :
  (JS.get (PostForm.errors emptySubmitted) "title" = Some "Title is required"
   ∧ JS.get (PostForm.errors
               (PostForm.handleChange StringUtils.generateSlug emptySubmitted
                  PostForm.Title "Hello World")) "title" = None
   ∧ PostForm.errors
       (PostForm.handleChange StringUtils.generateSlug emptySubmitted
          PostForm.Title "Hello World") !! "content"
     = Some (Some "Content is required"))
  ∧ (JS.get (LoginForm.errors emptyLoginSubmitted) "password"
     = Some "Password is required"
     ∧ JS.get (LoginForm.errors
                 (LoginForm.handleChange emptyLoginSubmitted
                    LoginForm.Password "secret")) "password" = None
     ∧ LoginForm.errors
         (LoginForm.handleChange emptyLoginSubmitted LoginForm.Password "secret")
       !! "email"
       = Some (Some "Email is required")).
Proof.
  destruct (change_clears_only_its_error StringUtils.generateSlug) as [Hpost Hlogin].
  split.
  - destruct (Hpost emptySubmitted PostForm.Title "Hello World") as [Hgone Hrest];
      [vm_compute; reflexivity |].
    split; [vm_compute; reflexivity |]. split; [exact Hgone |].
    rewrite (Hrest "content") by discriminate. vm_compute; reflexivity.
  - destruct (Hlogin emptyLoginSubmitted LoginForm.Password "secret") as [Hgone Hrest];
      [vm_compute; reflexivity |].
    split; [vm_compute; reflexivity |]. split; [exact Hgone |].
    rewrite (Hrest "email") by discriminate. vm_compute; reflexivity.
Defined.


(** ** More on the PostForm: markup and handled events *)

Section PostFormMarkup.

Variable generateSlug : string → string.
Variable validatePostForm : PostForm.PostFormData → FormErrors.
Variable categoriesProp : list PostForm.Category.
Variable onSuccess : bool.

Local Abbreviation handleChange := (PostForm.handleChange generateSlug).
Local Abbreviation handleSubmit := (PostForm.handleSubmit validatePostForm).
Local Abbreviation resume := (PostForm.handleSubmit_resume onSuccess).
Local Abbreviation render := (PostForm.render categoriesProp).
Local Abbreviation step :=
  (PostForm.step generateSlug validatePostForm categoriesProp onSuccess).
Local Abbreviation run :=
  (PostForm.run generateSlug validatePostForm categoriesProp onSuccess).

(** The guard [categories.length > 0] changes nothing to the list. *)
Lemma checkboxes_render s :
  PostForm.checkboxes (render s) =
    (fun category =>
       {| PostForm.checkboxId := PostForm.id category;
          PostForm.checkboxLabel := PostForm.label category;
          PostForm.checked :=
            JS.includes (JS.or_empty (PostForm.categories (PostForm.formData s)))
              (PostForm.id category);
          PostForm.checkboxDisabled := PostForm.isSubmitting s |}) <$> categoriesProp.
Proof. unfold PostForm.render. simpl. by destruct categoriesProp. Qed.

Lemma checkbox_enabled_iff s x :
  PostForm.checkboxEnabled (render s) x = true
  ↔ x ∈ offered categoriesProp ∧ PostForm.isSubmitting s = false.
Proof.
  unfold PostForm.checkboxEnabled. rewrite checkboxes_render, existsb_exists.
  unfold offered. split.
  - intros (c & Hc & Hen).
    apply list_elem_of_In, list_elem_of_fmap in Hc as (category & -> & Hcat).
    simpl in Hen. apply andb_true_iff in Hen as [Hid Hidle].
    apply String.eqb_eq in Hid. apply negb_true_iff in Hidle.
    split; [| done]. apply list_elem_of_fmap. by exists category.
  - intros [Hx Hidle]. apply list_elem_of_fmap in Hx as (category & -> & Hcat).
    eexists. split.
    + apply list_elem_of_In, list_elem_of_fmap. by exists category.
    + simpl. by rewrite String.eqb_refl, Hidle.
Qed.

(** What a handled event did. *)
Lemma step_inv w e w' :
  step w e = Some w' →
  match e with
  | PostForm.Change f v =>
      PostForm.isSubmitting (PostForm.form w) = false
      ∧ w' = {| PostForm.form := handleChange (PostForm.form w) f v;
                PostForm.awaiting := PostForm.awaiting w;
                PostForm.log := PostForm.log w |}
  | PostForm.Toggle x =>
      PostForm.isSubmitting (PostForm.form w) = false
      ∧ x ∈ offered categoriesProp
      ∧ w' = {| PostForm.form := PostForm.handleCategoryToggle (PostForm.form w) x;
                PostForm.awaiting := PostForm.awaiting w;
                PostForm.log := PostForm.log w |}
  | PostForm.Submit =>
      PostForm.isSubmitting (PostForm.form w) = false
      ∧ w' = {| PostForm.form := (handleSubmit (PostForm.form w)).1;
                PostForm.awaiting :=
                  PostForm.awaiting w ++ option_list (handleSubmit (PostForm.form w)).2;
                PostForm.log :=
                  PostForm.log w
                  ++ (CallAction <$> option_list (handleSubmit (PostForm.form w)).2) |}
  | PostForm.Clear =>
      PostForm.isSubmitting (PostForm.form w) = false
      ∧ w' = {| PostForm.form := PostForm.handleClear (PostForm.form w);
                PostForm.awaiting := PostForm.awaiting w;
                PostForm.log := PostForm.log w |}
  | PostForm.Settle o outside =>
      ∃ call rest,
        PostForm.awaiting w = call :: rest
        ∧ w' = {| PostForm.form := (resume (PostForm.form w) o outside).1;
                  PostForm.awaiting := rest;
                  PostForm.log :=
                    PostForm.log w ++ (resume (PostForm.form w) o outside).2 |}
  end.
Proof.
  intros Hstep.
  pose proof (step_enabled _ _ _ _ _ _ _ Hstep) as Hen.
  destruct e; simpl in Hstep, Hen.
  - split; [done |]. destruct f; simpl in Hstep; rewrite Hen in Hstep; congruence.
  - split; [done |].
    destruct (PostForm.checkboxEnabled _ _) eqn:E; [| done].
    apply checkbox_enabled_iff in E as [Hx _]. split; [done | congruence].
  - split; [done |]. rewrite Hen in Hstep.
    destruct (handleSubmit (PostForm.form w)) as [s call]. simpl. congruence.
  - split; [done |]. rewrite Hen in Hstep. congruence.
  - destruct (PostForm.awaiting w) as [| call rest]; [done |].
    exists call, rest. split; [done |].
    destruct (resume (PostForm.form w) o outside) as [s effects]. simpl. congruence.
Qed.

Lemma run_preserves (P : PostForm.World → Prop) :
  (∀ w e w', P w → step w e = Some w' → P w') →
  ∀ events w w', P w → run w events = Some w' → P w'.
Proof.
  intros Hstep events.
  induction events as [| e events IH]; intros w w' Hw Hrun; simpl in Hrun.
  - by injection Hrun as <-.
  - destruct (step w e) as [w1 |] eqn:E; [| done]. eauto.
Qed.

(** X2.  The checkboxes of the markup mirror the [categories] prop, also
    when it is empty: there is one per category, in the order of the
    prop, with the id and the label of its category; a checkbox is
    ticked exactly when its id is in the selection (read as [[]] when
    [undefined]) and all are disabled exactly while submitting. *)
Theorem checkboxes_mirror_categories :
  ∀ s,
    PostForm.checkboxId <$> PostForm.checkboxes (render s) = offered categoriesProp
    ∧ PostForm.checkboxLabel <$> PostForm.checkboxes (render s)
      = (PostForm.label <$> categoriesProp)
    ∧ (∀ c, c ∈ PostForm.checkboxes (render s) →
            (PostForm.checked c = true
             ↔ PostForm.checkboxId c
               ∈ JS.or_empty (PostForm.categories (PostForm.formData s)))
            ∧ PostForm.checkboxDisabled c = PostForm.isSubmitting s).
Proof.
  intros s. rewrite checkboxes_render. unfold offered.
  split; [| split].
  - rewrite <- list_fmap_compose. by apply list_fmap_ext.
  - rewrite <- list_fmap_compose. by apply list_fmap_ext.
  - intros c Hc. apply list_elem_of_fmap in Hc as (category & -> & _). simpl.
    split; [apply includes_elem_of | done].
Qed.

End PostFormMarkup.

(** ** More on the change handlers *)

Lemma login_change_formData s f v :
  LoginForm.formData (LoginForm.handleChange s f v)
  = LoginForm.assign (LoginForm.formData s) f v.
Proof. unfold LoginForm.handleChange. by repeat case_match. Qed.

Lemma login_change_serverError s f v :
  LoginForm.serverError (LoginForm.handleChange s f v) = "".
Proof.
  unfold LoginForm.handleChange.
  destruct (JS.truthy (LoginForm.serverError s)) eqn:E;
    repeat case_match; simpl; try done; by apply truthy_false.
Qed.

Lemma change_categories generateSlug s f v :
  PostForm.categories (PostForm.formData (PostForm.handleChange generateSlug s f v))
  = PostForm.categories (PostForm.formData s).
Proof.
  rewrite change_formData.
  by destruct f, (PostForm.isSlugManuallyEdited s).
Qed.

(** A key whose entry reads as a message is a key of the object. *)
Lemma truthy_entry_is_key (m : FormErrors) (k : string) :
  JS.truthy_opt (JS.get m k) = true → k ∈ dom m.
Proof.
  unfold JS.get. intros H. apply elem_of_dom.
  destruct (m !! k); [done | discriminate H].
Qed.

Lemma clear_entry_dom (m : FormErrors) (k : string) :
  JS.truthy_opt (JS.get m k) = true → dom (<[k := None]> m) = dom m.
Proof.
  intros H. apply truthy_entry_is_key in H. rewrite dom_insert_L.
  apply set_eq. intros j. rewrite elem_of_union, elem_of_singleton.
  split; [by intros [-> |] | auto].
Qed.

Lemma clear_entry_no_new_error (m : FormErrors) (k j : string) :
  JS.truthy_opt (JS.get (<[k := None]> m) j) = true →
  j ≠ k ∧ JS.truthy_opt (JS.get m j) = true.
Proof.
  unfold JS.get. destruct (decide (k = j)) as [-> | Hne].
  - by rewrite lookup_insert_eq.
  - rewrite lookup_insert_ne by done. intros H. split; [congruence | done].
Qed.

(** X3.  In both forms, whatever the state, a change of any field
    leaves [serverError] empty, and in the PostForm [successMessage] as
    well, so the markup after the change shows no banner. *)
Theorem change_dismisses_banners :
  (∀ generateSlug categoriesProp s f v,
     let s' := PostForm.handleChange generateSlug s f v in
     PostForm.serverError s' = ""
     ∧ PostForm.successMessage s' = ""
     ∧ PostForm.errorPanel (PostForm.render categoriesProp s') = None
     ∧ PostForm.successPanel (PostForm.render categoriesProp s') = None)
  ∧ (∀ s f v,
       let s' := LoginForm.handleChange s f v in
       LoginForm.serverError s' = ""
       ∧ LoginForm.errorPanel (LoginForm.render s') = None).
Proof.
  split.
  - intros generateSlug categoriesProp s f v. simpl.
    rewrite change_serverError, change_successMessage. done.
  - intros s f v. simpl. rewrite login_change_serverError. done.
Qed.

(** X4.  In both forms the input that fired the change shows the value
    that was typed, and every other input shows what it showed before,
    but for the slug input of the PostForm on a change of the title
    while the slug was not typed by hand, which shows [generateSlug] of
    the title.  A slug typed by hand is kept as typed.  The selection of
    categories and the submitting flag are not touched. *)
Theorem change_shows_typed_value :
  (∀ generateSlug categoriesProp s f v,
     let s' := PostForm.handleChange generateSlug s f v in
     postInputValue (PostForm.render categoriesProp s') f = v
     ∧ (∀ g, g ≠ f →
             postInputValue (PostForm.render categoriesProp s') g =
               match f, g with
               | PostForm.Title, PostForm.Slug =>
                   if PostForm.isSlugManuallyEdited s
                   then postInputValue (PostForm.render categoriesProp s) g
                   else generateSlug v
               | _, _ => postInputValue (PostForm.render categoriesProp s) g
               end)
     ∧ PostForm.categories (PostForm.formData s')
       = PostForm.categories (PostForm.formData s)
     ∧ PostForm.isSubmitting s' = PostForm.isSubmitting s)
  ∧ (∀ s f v,
       let s' := LoginForm.handleChange s f v in
       loginInputValue (LoginForm.render s') f = v
       ∧ (∀ g, g ≠ f →
               loginInputValue (LoginForm.render s') g
               = loginInputValue (LoginForm.render s) g)
       ∧ LoginForm.isSubmitting s' = LoginForm.isSubmitting s).
Proof.
  split.
  - intros generateSlug categoriesProp s f v. simpl.
    rewrite change_categories, change_isSubmitting.
    split; [| split; [| done]].
    + unfold postInputValue, PostForm.render. simpl. rewrite change_formData.
      by destruct f, (PostForm.isSlugManuallyEdited s).
    + intros g Hg. unfold postInputValue, PostForm.render. simpl.
      rewrite change_formData.
      by destruct f, g, (PostForm.isSlugManuallyEdited s).
  - intros s f v. simpl. rewrite login_change_isSubmitting.
    split; [| split; [| done]].
    + unfold loginInputValue, LoginForm.render. simpl. rewrite login_change_formData.
      by destruct f.
    + intros g Hg. unfold loginInputValue, LoginForm.render. simpl.
      rewrite login_change_formData. by destruct f, g.
Qed.

(** X5.  In both forms a change never adds a key to the error object
    nor removes one (an entry that is cleared stays as a key bound to
    [undefined], so [Object.keys] counts it still), and it never makes
    a field carry a message that did not carry one: the only entry
    that can change is the one of the field that fired the event. *)
Theorem change_keeps_error_keys :
  (∀ generateSlug s f v,
     let errors' := PostForm.errors (PostForm.handleChange generateSlug s f v) in
     dom errors' = dom (PostForm.errors s)
     ∧ JS.keys_length errors' = JS.keys_length (PostForm.errors s)
     ∧ (∀ k, JS.truthy_opt (JS.get errors' k) = true →
             k ≠ PostForm.name f ∧ JS.truthy_opt (JS.get (PostForm.errors s) k) = true)
     ∧ (JS.truthy_opt (JS.get (PostForm.errors s) (PostForm.name f)) = false →
        errors' = PostForm.errors s))
  ∧ (∀ s f v,
       let errors' := LoginForm.errors (LoginForm.handleChange s f v) in
       dom errors' = dom (LoginForm.errors s)
       ∧ JS.keys_length errors' = JS.keys_length (LoginForm.errors s)
       ∧ (∀ k, JS.truthy_opt (JS.get errors' k) = true →
               k ≠ LoginForm.name f ∧ JS.truthy_opt (JS.get (LoginForm.errors s) k) = true)
       ∧ (JS.truthy_opt (JS.get (LoginForm.errors s) (LoginForm.name f)) = false →
          errors' = LoginForm.errors s)).
Proof.
  assert (∀ (m : FormErrors) (k : string),
            let m' := if JS.truthy_opt (JS.get m k) then <[k := None]> m else m in
            dom m' = dom m
            ∧ JS.keys_length m' = JS.keys_length m
            ∧ (∀ j, JS.truthy_opt (JS.get m' j) = true →
                    j ≠ k ∧ JS.truthy_opt (JS.get m j) = true)
            ∧ (JS.truthy_opt (JS.get m k) = false → m' = m)) as Hmap.
  { intros m k. simpl. destruct (JS.truthy_opt (JS.get m k)) eqn:E.
    - pose proof (clear_entry_dom _ _ E) as Hdom.
      split; [done |]. split.
      + unfold JS.keys_length. by rewrite <- !size_dom, Hdom.
      + split; [apply clear_entry_no_new_error | done].
    - split; [done |]. split; [done |]. split; [| done].
      intros j Hj. split; [| done]. intros ->. congruence. }
  split.
  - intros generateSlug s f v. simpl. rewrite change_errors. apply Hmap.
  - intros s f v. simpl. rewrite login_change_errors. apply Hmap.
Qed.

(** ** More on the selection of categories *)

Lemma toggle_elem_of (l : list string) (x y : string) :
  y ∈ PostForm.toggle l x ↔ if decide (x ∈ l) then y ∈ l ∧ y ≠ x else y ∈ l ∨ y = x.
Proof.
  destruct (decide (x ∈ l)) as [Hx | Hx].
  - by apply toggle_present.
  - rewrite (toggle_absent _ _ Hx), elem_of_app, list_elem_of_singleton. done.
Qed.

Lemma includes_toggle (l : list string) (x y : string) :
  JS.includes (PostForm.toggle l x) y =
    if String.eqb y x then negb (JS.includes l x) else JS.includes l y.
Proof.
  apply Bool.eq_iff_eq_true.
  rewrite includes_elem_of, toggle_elem_of.
  destruct (String.eqb y x) eqn:E.
  - apply String.eqb_eq in E as ->. rewrite negb_true_iff, <- not_true_iff_false.
    rewrite includes_elem_of. destruct (decide (x ∈ l)); tauto.
  - apply String.eqb_neq in E. rewrite includes_elem_of.
    destruct (decide (x ∈ l)); tauto.
Qed.

Lemma filter_other_id (l : list string) (x : string) :
  x ∉ l → List.filter (fun id => negb (String.eqb id x)) l = l.
Proof.
  induction l as [| y l IH]; intros Hx; simpl; [done |].
  apply not_elem_of_cons in Hx as [Hne Hx].
  assert (String.eqb y x = false) as -> by (apply String.eqb_neq; congruence).
  simpl. by rewrite IH.
Qed.

Lemma toggle_NoDup (l : list string) (x : string) :
  NoDup l → NoDup (PostForm.toggle l x).
Proof.
  intros Hl. unfold PostForm.toggle. destruct (JS.includes l x) eqn:E.
  - apply NoDup_ListNoDup, List.NoDup_filter. by apply NoDup_ListNoDup.
  - apply NoDup_app. split; [done |]. split; [| apply NoDup_singleton].
    intros y Hy Hyx. apply list_elem_of_singleton in Hyx as ->.
    apply includes_elem_of in Hy. congruence.
Qed.

(** X6.  A toggle flips the tick of the checkbox of its category and of
    no other: the ticks of the markup after [handleCategoryToggle] are
    those before it, negated where the checkbox has the toggled id.
    Unlike a change of an input, a toggle leaves the values of the
    inputs, the field errors and both banners as they are. *)
Theorem toggle_flips_its_checkbox :
  ∀ categoriesProp s x,
    let s' := PostForm.handleCategoryToggle s x in
    PostForm.checked <$> PostForm.checkboxes (PostForm.render categoriesProp s')
    = (fun c => if String.eqb (PostForm.checkboxId c) x
                then negb (PostForm.checked c)
                else PostForm.checked c)
        <$> PostForm.checkboxes (PostForm.render categoriesProp s)
    ∧ (∀ f, postInputValue (PostForm.render categoriesProp s') f
            = postInputValue (PostForm.render categoriesProp s) f)
    ∧ PostForm.errors s' = PostForm.errors s
    ∧ PostForm.serverError s' = PostForm.serverError s
    ∧ PostForm.successMessage s' = PostForm.successMessage s
    ∧ PostForm.isSlugManuallyEdited s' = PostForm.isSlugManuallyEdited s
    ∧ PostForm.isSubmitting s' = PostForm.isSubmitting s.
Proof.
  intros categoriesProp s x s'. subst s'. split; [| split; [by intros [] | done]].
  rewrite !checkboxes_render, <- !list_fmap_compose.
  apply list_fmap_ext. intros i category _. simpl. rewrite includes_toggle.
  destruct (String.eqb (PostForm.id category) x) eqn:E; [| done].
  apply String.eqb_eq in E. by rewrite E.
Qed.

(** X7.  On a selection without repetition a toggle gives a selection
    without repetition, one id longer when the id was absent and one
    shorter when it was there, and two toggles of the same id give a
    permutation of the selection.  When the id was absent, two toggles
    give back the very same list, repetition or not. *)
Theorem toggle_without_repetition :
  ∀ (l : list string) (x : string),
    (NoDup l →
     NoDup (PostForm.toggle l x)
     ∧ PostForm.toggle (PostForm.toggle l x) x ≡ₚ l
     ∧ (if JS.includes l x
        then S (length (PostForm.toggle l x)) = length l
        else length (PostForm.toggle l x) = S (length l)))
    ∧ (x ∉ l → PostForm.toggle (PostForm.toggle l x) x = l).
Proof.
  intros l x. split.
  - intros Hl.
    assert (PostForm.toggle (PostForm.toggle l x) x ≡ₚ l) as Hperm.
    { apply NoDup_Permutation; [by do 2 apply toggle_NoDup | done |].
      intros y. apply toggle_twice. }
    split; [by apply toggle_NoDup |]. split; [done |].
    destruct (JS.includes l x) eqn:E.
    + assert (x ∉ PostForm.toggle l x) as Hgone.
      { rewrite toggle_elem_of. apply includes_elem_of in E.
        destruct (decide (x ∈ l)); tauto. }
      rewrite (toggle_absent _ _ Hgone) in Hperm.
      apply Permutation_length in Hperm. rewrite length_app in Hperm.
      simpl in Hperm. lia.
    + unfold PostForm.toggle. rewrite E, length_app. simpl. lia.
  - intros Hx. rewrite (toggle_absent _ _ Hx). unfold PostForm.toggle.
    assert (JS.includes (l ++ [x]) x = true) as ->.
    { apply includes_elem_of, elem_of_app. right. by apply list_elem_of_singleton. }
    rewrite List.filter_app, (filter_other_id _ _ Hx). simpl.
    rewrite String.eqb_refl. simpl. by rewrite app_nil_r.
Qed.

Lemma toggle_without_repetition_witness :
  NoDup ["news"; "tech"]
  ∧ PostForm.toggle ["news"; "tech"] "news" = ["tech"]
  ∧ PostForm.toggle (PostForm.toggle ["news"; "tech"] "news") "news" = ["tech"; "news"]
  ∧ PostForm.toggle (PostForm.toggle ["news"; "tech"] "news") "news" ≡ₚ ["news"; "tech"]
  ∧ NoDup (PostForm.toggle ["news"; "tech"] "news")
  ∧ ("sport" ∉ ["news"; "tech"])
  ∧ PostForm.toggle (PostForm.toggle ["news"; "tech"] "sport") "sport" = ["news"; "tech"].
Proof.
  destruct (toggle_without_repetition ["news"; "tech"] "news") as [Hnodup _].
  destruct (toggle_without_repetition ["news"; "tech"] "sport") as [_ Habsent].
  assert (NoDup ["news"; "tech"]) as Hl
    by (apply (bool_decide_unpack _); vm_compute; exact I).
  assert ("sport" ∉ ["news"; "tech"]) as Hsport
    by (apply (bool_decide_unpack _); vm_compute; exact I).
  destruct (Hnodup Hl) as (Hnd & Hperm & _).
  split; [exact Hl |]. split; [reflexivity |]. split; [reflexivity |].
  split; [exact Hperm |]. split; [exact Hnd |]. split; [exact Hsport |].
  exact (Habsent Hsport).
Defined.

(** ** More on the outcome of a submission *)

Lemma truthy_nonempty (s : string) : s ≠ "" → JS.truthy s = true.
Proof.
  intros H. unfold JS.truthy. apply negb_true_iff. by apply String.eqb_neq.
Qed.

Lemma or_else_nonempty (o : option string) (d : string) :
  d ≠ "" → JS.or_else o d ≠ "".
Proof.
  intros Hd. unfold JS.or_else. destruct o as [s |]; [| done].
  destruct (JS.truthy s) eqn:E; [| done].
  unfold JS.truthy in E. apply negb_true_iff in E. by apply String.eqb_neq in E.
Qed.

(** X8.  In both forms a submission that fails always leaves a message
    to show: when the action answers [success = false] with no [error],
    or with an empty one, the banner gets the default text, and when
    the action throws it gets the generic one.  So after a failure
    [serverError] is never empty and the markup has the error panel
    with that text; nothing is asked of the parent or the browser. *)
Theorem failure_always_shows_banner :
  (∀ onSuccess categoriesProp s o outside,
     failed o = true →
     let s' := (PostForm.handleSubmit_resume onSuccess s o outside).1 in
     PostForm.serverError s' ≠ ""
     ∧ PostForm.errorPanel (PostForm.render categoriesProp s')
       = Some (PostForm.serverError s')
     ∧ (PostForm.handleSubmit_resume onSuccess s o outside).2 = [])
  ∧ (∀ onSuccess s o outside,
       failed o = true →
       let s' := (LoginForm.handleSubmit_resume onSuccess s o outside).1 in
       LoginForm.serverError s' ≠ ""
       ∧ LoginForm.errorPanel (LoginForm.render s') = Some (LoginForm.serverError s')
       ∧ (LoginForm.handleSubmit_resume onSuccess s o outside).2 = []).
Proof.
  split.
  - intros onSuccess categoriesProp s o outside Hfail. simpl.
    rewrite (post_resume_failed _ _ _ _ Hfail). simpl.
    assert (PostForm.failureMessage o ≠ "") as Hmsg.
    { destruct o as [result |]; simpl; [by apply or_else_nonempty | done]. }
    by rewrite (truthy_nonempty _ Hmsg).
  - intros onSuccess s o outside Hfail. simpl.
    rewrite (login_resume_failed _ _ _ _ Hfail). simpl.
    assert (LoginForm.failureMessage o ≠ "") as Hmsg.
    { destruct o as [result |]; simpl; [by apply or_else_nonempty | done]. }
    by rewrite (truthy_nonempty _ Hmsg).
Qed.

Lemma failure_always_shows_banner_witness :
  (failed (Resolved {| success := false; error := Some "" |}) = true
   ∧ PostForm.serverError
       (PostForm.handleSubmit_resume true (PostForm.form draftInFlight)
          (Resolved {| success := false; error := Some "" |}) calm).1
     = "Failed to create post"
   ∧ PostForm.serverError
       (PostForm.handleSubmit_resume true (PostForm.form draftInFlight)
          (Resolved {| success := false; error := Some "" |}) calm).1 ≠ "")
  ∧ (failed (Resolved {| success := false; error := None |}) = true
     ∧ LoginForm.serverError
         (LoginForm.handleSubmit_resume true (LoginForm.form loginInFlight)
            (Resolved {| success := false; error := None |}) calm).1
       = "Authentication failed"
     ∧ LoginForm.serverError
         (LoginForm.handleSubmit_resume true (LoginForm.form loginInFlight)
            (Resolved {| success := false; error := None |}) calm).1 ≠ "").
Proof.
  destruct failure_always_shows_banner as [Hpost Hlogin].
  split.
  - split; [reflexivity |]. split; [reflexivity |].
    exact (proj1 (Hpost true [] (PostForm.form draftInFlight)
                    (Resolved {| success := false; error := Some "" |}) calm eq_refl)).
  - split; [reflexivity |]. split; [reflexivity |].
    exact (proj1 (Hlogin true (LoginForm.form loginInFlight)
                    (Resolved {| success := false; error := None |}) calm eq_refl)).
Defined.

(** ** More on the lifetime of a PostForm *)





Section PostFormLifetime.

Variable generateSlug : string → string.
Variable validatePostForm : PostForm.PostFormData → FormErrors.
Variable categoriesProp : list PostForm.Category.
Variable onSuccess : bool.

Local Abbreviation handleChange := (PostForm.handleChange generateSlug).
Local Abbreviation handleSubmit := (PostForm.handleSubmit validatePostForm).
Local Abbreviation resume := (PostForm.handleSubmit_resume onSuccess).
Local Abbreviation render := (PostForm.render categoriesProp).
Local Abbreviation step :=
  (PostForm.step generateSlug validatePostForm categoriesProp onSuccess).
Local Abbreviation run :=
  (PostForm.run generateSlug validatePostForm categoriesProp onSuccess).
Local Abbreviation inverted :=
  (step_inv generateSlug validatePostForm categoriesProp onSuccess).
Local Abbreviation preserved :=
  (run_preserves generateSlug validatePostForm categoriesProp onSuccess).

Lemma resume_idle s o outside :
  PostForm.isSubmitting (resume s o outside).1 = false.
Proof.
  destruct o as [result |]; simpl; [| done].
  destruct (success result); [| done]. by success_paths onSuccess outside.
Qed.


Lemma step_payload w e w' : PostPayload w → step w e = Some w' → PostPayload w'.
Proof.
  unfold PostPayload. intros Hp Hstep. apply inverted in Hstep.
  destruct e.
  - destruct Hstep as [Hidle ->]. simpl.
    rewrite change_isSubmitting, Hidle. by rewrite Hidle in Hp.
  - destruct Hstep as (Hidle & _ & ->). simpl. rewrite Hidle. by rewrite Hidle in Hp.
  - destruct Hstep as [Hidle ->]. rewrite Hidle in Hp. simpl. rewrite Hp.
    unfold PostForm.handleSubmit. destruct (Nat.ltb 0 _); simpl; by rewrite ?Hidle.
  - destruct Hstep as [Hidle ->]. simpl. rewrite Hidle. by rewrite Hidle in Hp.
  - destruct Hstep as (call & rest & Haw & ->). simpl. rewrite resume_idle.
    rewrite Haw in Hp. destruct (PostForm.isSubmitting _); congruence.
Qed.

Lemma step_selection w e w' :
  PostSelection categoriesProp (PostForm.form w) →
  step w e = Some w' →
  PostSelection categoriesProp (PostForm.form w').
Proof.
  unfold PostSelection. intros (l & Hl & Hnd & Hsub) Hstep. apply inverted in Hstep.
  assert (∃ l0 : list string,
            Some [] = Some l0 ∧ NoDup l0 ∧ ∀ x, x ∈ l0 → x ∈ offered categoriesProp)
    as Hempty.
  { exists []. split; [done |]. split; [apply NoDup_nil_2 |]. intros x Hx.
    by apply not_elem_of_nil in Hx. }
  destruct e.
  - destruct Hstep as [_ ->]. simpl. rewrite change_categories. eauto.
  - destruct Hstep as (_ & Hx & ->). simpl. rewrite Hl. simpl.
    exists (PostForm.toggle l categoryId). split; [done |].
    split; [by apply toggle_NoDup |].
    intros y Hy. apply toggle_elem_of in Hy.
    destruct (decide (categoryId ∈ l)); [apply Hsub; tauto |].
    destruct Hy as [Hy | ->]; [by apply Hsub | done].
  - destruct Hstep as [_ ->]. simpl. unfold PostForm.handleSubmit.
    destruct (Nat.ltb 0 _); simpl; eauto.
  - destruct Hstep as [_ ->]. exact Hempty.
  - destruct Hstep as (call & rest & _ & ->). simpl.
    destruct o as [result |]; simpl;
      [destruct (success result); [success_paths onSuccess outside |] |];
      simpl; eauto.
Qed.

Lemma step_slug_sync w e w' :
  SlugInSync generateSlug (PostForm.form w) →
  step w e = Some w' →
  SlugInSync generateSlug (PostForm.form w').
Proof.
  unfold SlugInSync. intros Hsync Hstep. apply inverted in Hstep.
  destruct e.
  - destruct Hstep as [_ ->]. simpl.
    rewrite change_isSlugManuallyEdited, change_formData.
    destruct f; [| done |]; intros Hflag; [rewrite Hflag; by right |].
    by apply Hsync.
  - by destruct Hstep as (_ & _ & ->).
  - destruct Hstep as [_ ->]. simpl. unfold PostForm.handleSubmit.
    by destruct (Nat.ltb 0 _).
  - destruct Hstep as [_ ->]. simpl. by left.
  - destruct Hstep as (call & rest & _ & ->). simpl.
    destruct o as [result |]; simpl;
      [destruct (success result); [success_paths onSuccess outside |] |];
      simpl; auto.
Qed.


(** X9.  In every state a PostForm reaches from its mount, the call of
    [createPost] that is awaited, if any, was made with the very form
    data the form holds: nothing can edit the form between the call
    and its answer. *)
Theorem awaited_post_is_the_one_displayed :
  ∀ events w,
    run PostForm.mount events = Some w →
    PostForm.awaiting w =
      if PostForm.isSubmitting (PostForm.form w)
      then [PostForm.formData (PostForm.form w)]
      else [].
Proof.
  intros events w Hrun.
  by apply (preserved PostPayload step_payload events PostForm.mount w).
Qed.

(** X10.  In every state a PostForm reaches from its mount, the
    selection of categories is an array (never [undefined]) without
    repetition, each id of which is the id of a category of the prop;
    so the selected ids are exactly the ids of the ticked checkboxes of
    the markup. *)
Theorem selection_is_offered_without_repetition :
  ∀ events w,
    run PostForm.mount events = Some w →
    ∃ l, PostForm.categories (PostForm.formData (PostForm.form w)) = Some l
         ∧ NoDup l
         ∧ (∀ x, x ∈ l → x ∈ offered categoriesProp)
         ∧ (∀ x, x ∈ l ↔ x ∈ ticked (render (PostForm.form w))).
Proof.
  intros events w Hrun.
  assert (PostSelection categoriesProp (PostForm.form PostForm.mount)) as Hmount.
  { exists []. split; [done |]. split; [apply NoDup_nil_2 |]. intros x Hx.
    by apply not_elem_of_nil in Hx. }
  destruct (preserved (fun w => PostSelection categoriesProp (PostForm.form w))
              step_selection events PostForm.mount w Hmount Hrun)
    as (l & Hl & Hnd & Hsub).
  exists l. repeat (split; [done |]).
  intros x. unfold ticked. rewrite checkboxes_render, Hl. simpl.
  rewrite list_elem_of_fmap. split.
  - intros Hx. pose proof (Hsub x Hx) as Hoff.
    apply list_elem_of_fmap in Hoff as (category & -> & Hcat).
    eexists. split; [| apply list_elem_of_In, filter_In; split;
                        [apply list_elem_of_In, list_elem_of_fmap; by exists category |]].
    + done.
    + simpl. by apply includes_elem_of.
  - intros (c & -> & Hc). apply list_elem_of_In, filter_In in Hc as [Hc Hticked].
    apply list_elem_of_In, list_elem_of_fmap in Hc as (category & -> & _).
    simpl in *. by apply includes_elem_of.
Qed.

(** X11.  In every state a PostForm reaches from its mount, as long as
    the manual-edit flag is down the slug on display is [generateSlug]
    of the title on display, or both are empty as a reset left them:
    typing in the content, ticking categories, a submission refused by
    validation or failed by the server, none of these lets the two
    drift apart. *)
Theorem slug_in_sync_with_title :
  ∀ events w,
    run PostForm.mount events = Some w →
    PostForm.isSlugManuallyEdited (PostForm.form w) = false →
    (PostForm.title (PostForm.formData (PostForm.form w)) = ""
     ∧ PostForm.slug (PostForm.formData (PostForm.form w)) = "")
    ∨ PostForm.slug (PostForm.formData (PostForm.form w))
      = generateSlug (PostForm.title (PostForm.formData (PostForm.form w))).
Proof.
  intros events w Hrun.
  apply (preserved (fun w => SlugInSync generateSlug (PostForm.form w))
           step_slug_sync events PostForm.mount w); [| done].
  intros _. by left.
Qed.


(** X13.  In every state a PostForm reaches from its mount, while a
    submission is under way no banner is up: both messages are empty,
    the markup has neither panel, and the submit button reads
    'Creating...'. *)
Theorem no_banner_while_creating :
  ∀ events w,
    run PostForm.mount events = Some w →
    PostForm.isSubmitting (PostForm.form w) = true →
    PostForm.serverError (PostForm.form w) = ""
    ∧ PostForm.successMessage (PostForm.form w) = ""
    ∧ PostForm.errorPanel (render (PostForm.form w)) = None
    ∧ PostForm.successPanel (render (PostForm.form w)) = None
    ∧ PostForm.submitLabel (render (PostForm.form w)) = "Creating...".
Proof.
  intros events w Hrun Hbusy.
  pose proof (run_invariant _ _ _ _ events _ _ mount_invariant Hrun) as Hinv.
  destruct (post_quiet _ Hinv Hbusy) as [Herr Hok].
  simpl. by rewrite Herr, Hok, Hbusy.
Qed.

End PostFormLifetime.

(** ** More on the lifetime of a LoginForm *)

Section LoginFormLifetime.

Variable validateLoginForm : LoginForm.LoginFormData → FormErrors.
Variable onSuccess : bool.

Local Abbreviation handleSubmit := (LoginForm.handleSubmit validateLoginForm).
Local Abbreviation resume := (LoginForm.handleSubmit_resume onSuccess).
Local Abbreviation step := (LoginForm.step validateLoginForm onSuccess).
Local Abbreviation run := (LoginForm.run validateLoginForm onSuccess).

Lemma login_step_inv w e w' :
  step w e = Some w' →
  match e with
  | LoginForm.Change f v =>
      LoginForm.isSubmitting (LoginForm.form w) = false
      ∧ w' = {| LoginForm.form := LoginForm.handleChange (LoginForm.form w) f v;
                LoginForm.awaiting := LoginForm.awaiting w;
                LoginForm.log := LoginForm.log w |}
  | LoginForm.Submit =>
      LoginForm.isSubmitting (LoginForm.form w) = false
      ∧ w' = {| LoginForm.form := (handleSubmit (LoginForm.form w)).1;
                LoginForm.awaiting :=
                  LoginForm.awaiting w ++ option_list (handleSubmit (LoginForm.form w)).2;
                LoginForm.log :=
                  LoginForm.log w
                  ++ (CallAction <$> option_list (handleSubmit (LoginForm.form w)).2) |}
  | LoginForm.Settle o outside =>
      ∃ call rest,
        LoginForm.awaiting w = call :: rest
        ∧ w' = {| LoginForm.form := (resume (LoginForm.form w) o outside).1;
                  LoginForm.awaiting := rest;
                  LoginForm.log :=
                    LoginForm.log w ++ (resume (LoginForm.form w) o outside).2 |}
  end.
Proof.
  intros Hstep.
  pose proof (login_step_enabled _ _ _ _ _ Hstep) as Hen.
  destruct e; simpl in Hstep, Hen.
  - split; [done |]. destruct f; simpl in Hstep; rewrite Hen in Hstep; congruence.
  - split; [done |]. rewrite Hen in Hstep.
    destruct (handleSubmit (LoginForm.form w)) as [s call]. simpl. congruence.
  - destruct (LoginForm.awaiting w) as [| call rest]; [done |].
    exists call, rest. split; [done |].
    destruct (resume (LoginForm.form w) o outside) as [s effects]. simpl. congruence.
Qed.

Lemma login_run_preserves (P : LoginForm.World → Prop) :
  (∀ w e w', P w → step w e = Some w' → P w') →
  ∀ events w w', P w → run w events = Some w' → P w'.
Proof.
  intros Hstep events.
  induction events as [| e events IH]; intros w w' Hw Hrun; simpl in Hrun.
  - by injection Hrun as <-.
  - destruct (step w e) as [w1 |] eqn:E; [| done]. eauto.
Qed.

Lemma login_resume_idle s o outside :
  LoginForm.isSubmitting (resume s o outside).1 = false.
Proof.
  destruct o as [result |]; simpl; [| done].
  destruct (success result); [| done]. by success_paths onSuccess outside.
Qed.


Lemma login_step_payload w e w' :
  LoginPayload w ∧ LoginQuiet w → step w e = Some w' → LoginPayload w' ∧ LoginQuiet w'.
Proof.
  unfold LoginPayload, LoginQuiet. intros [Hp Hq] Hstep. apply login_step_inv in Hstep.
  destruct e.
  - destruct Hstep as [Hidle ->]. simpl.
    rewrite login_change_isSubmitting, login_change_formData, Hidle.
    rewrite Hidle in Hp. done.
  - destruct Hstep as [Hidle ->]. rewrite Hidle in Hp. simpl. rewrite Hp.
    unfold LoginForm.handleSubmit. destruct (Nat.ltb 0 _); simpl; by rewrite ?Hidle.
  - destruct Hstep as (call & rest & Haw & ->). simpl. rewrite login_resume_idle.
    rewrite Haw in Hp. split; [| done].
    destruct (LoginForm.isSubmitting _); congruence.
Qed.


(** X15.  In every state a LoginForm reaches from its mount, the call of
    [authorizeUser] that is awaited, if any, was made with the email
    and the password the form holds; and while it is awaited no error
    banner is up and the button reads 'Signing in...'. *)
Theorem awaited_login_is_the_one_displayed :
  ∀ events w,
    run LoginForm.mount events = Some w →
    LoginForm.awaiting w =
      (if LoginForm.isSubmitting (LoginForm.form w)
       then [(LoginForm.email (LoginForm.formData (LoginForm.form w)),
              LoginForm.password (LoginForm.formData (LoginForm.form w)))]
       else [])
    ∧ (LoginForm.isSubmitting (LoginForm.form w) = true →
       LoginForm.serverError (LoginForm.form w) = ""
       ∧ LoginForm.errorPanel (LoginForm.render (LoginForm.form w)) = None
       ∧ LoginForm.submitLabel (LoginForm.render (LoginForm.form w)) = "Signing in...").
Proof.
  intros events w Hrun.
  assert (LoginPayload LoginForm.mount ∧ LoginQuiet LoginForm.mount) as Hmount by done.
  destruct (login_run_preserves _ login_step_payload events _ _ Hmount Hrun) as [Hp Hq].
  split; [exact Hp |]. intros Hbusy. simpl. by rewrite (Hq Hbusy), Hbusy.
Qed.


End LoginFormLifetime.

(** ** Whole submissions and the clear button *)

Lemma get_empty (k : string) : JS.get ∅ k = None.
Proof. unfold JS.get. by rewrite lookup_empty. Qed.

Section WholeSubmissions.

Variable generateSlug : string → string.
Variable validatePostForm : PostForm.PostFormData → FormErrors.
Variable categoriesProp : list PostForm.Category.
Variable validateLoginForm : LoginForm.LoginFormData → FormErrors.
Variable onSuccess : bool.

Local Abbreviation postStep :=
  (PostForm.step generateSlug validatePostForm categoriesProp onSuccess).
Local Abbreviation postRun :=
  (PostForm.run generateSlug validatePostForm categoriesProp onSuccess).
Local Abbreviation loginStep := (LoginForm.step validateLoginForm onSuccess).
Local Abbreviation loginRun := (LoginForm.run validateLoginForm onSuccess).

(** X17.  A submission that validation lets through and that the server
    answers with [success = true].  The PostForm ends with the empty
    form data, the success message, both flags down and the field
    errors it had before the submission: the success branch resets the
    form data and not the errors.  The LoginForm ends as it was before
    the submission.  In both, [serverError] ends empty when the calls
    of the success branch return, and with 'An unexpected error
    occurred' when one of them throws, in the PostForm beside the
    success message.  The log gains the call with the form data of
    before, then [onSuccess] if passed, then the reload unless the
    callback threw. *)
Theorem successful_submission_end_state :
  (∀ w w1 result outside w2,
     JS.keys_length (validatePostForm (PostForm.formData (PostForm.form w))) = 0 →
     postStep w PostForm.Submit = Some w1 →
     success result = true →
     postStep w1 (PostForm.Settle (Resolved result) outside) = Some w2 →
     PostForm.form w2 =
       {| PostForm.formData := PostForm.emptyForm;
          PostForm.errors := PostForm.errors (PostForm.form w);
          PostForm.isSubmitting := false;
          PostForm.serverError :=
            if successThrows onSuccess outside
            then "An unexpected error occurred" else "";
          PostForm.successMessage := "Post created successfully!";
          PostForm.isSlugManuallyEdited := false |}
     ∧ PostForm.log w2 =
         PostForm.log w
         ++ [CallAction (PostForm.formData (PostForm.form w))]
         ++ (if onSuccess
             then CallOnSuccess :: match onSuccessCall outside with
                                   | Throws => []
                                   | Returns => [Reload]
                                   end
             else [Reload]))
  ∧ (∀ w w1 result outside w2,
       JS.keys_length (validateLoginForm (LoginForm.formData (LoginForm.form w))) = 0 →
       loginStep w LoginForm.Submit = Some w1 →
       success result = true →
       loginStep w1 (LoginForm.Settle (Resolved result) outside) = Some w2 →
       LoginForm.form w2 =
         LoginForm.setServerError
           (if successThrows onSuccess outside
            then "An unexpected error occurred" else "")
           (LoginForm.form w)
       ∧ LoginForm.log w2 =
           LoginForm.log w
           ++ [CallAction (LoginForm.email (LoginForm.formData (LoginForm.form w)),
                           LoginForm.password (LoginForm.formData (LoginForm.form w)))]
           ++ (if onSuccess
               then CallOnSuccess :: match onSuccessCall outside with
                                     | Throws => []
                                     | Returns => [Reload]
                                     end
               else [Reload])).
Proof.
  split.
  - intros w w1 result outside w2 Hvalid Hsubmit Hok Hsettle.
    apply step_inv in Hsubmit as [Hidle ->].
    apply step_inv in Hsettle as (call & rest & _ & ->).
    rewrite (post_submit_valid _ _ Hvalid). simpl. rewrite Hok.
    unfold successThrows.
    success_paths onSuccess outside; by rewrite <- app_assoc.
  - intros w w1 result outside w2 Hvalid Hsubmit Hok Hsettle.
    apply login_step_inv in Hsubmit as [Hidle ->].
    apply login_step_inv in Hsettle as (call & rest & _ & ->).
    rewrite (login_submit_valid _ _ Hvalid). simpl. rewrite Hok.
    unfold successThrows.
    destruct w as [[data errs busy err] aw lg]. simpl in *. subst busy.
    success_paths onSuccess outside; by rewrite <- app_assoc.
Qed.

(** X18.  The clear button puts the PostForm back to the state of its
    mount but for the manual-edit flag, which it leaves as it is, and
    touches neither the log nor anything awaited.  So when the slug had
    been typed by hand, the title typed after a clear does not give a
    slug: the slug stays empty. *)
Theorem clear_keeps_manual_edit_flag :
  ∀ w w',
    postStep w PostForm.Clear = Some w' →
    PostForm.form w' =
      PostForm.setIsSlugManuallyEdited
        (PostForm.isSlugManuallyEdited (PostForm.form w)) PostForm.initial
    ∧ PostForm.awaiting w' = PostForm.awaiting w
    ∧ PostForm.log w' = PostForm.log w
    ∧ (PostForm.isSlugManuallyEdited (PostForm.form w) = true →
       ∀ t, ∃ w'',
         postStep w' (PostForm.Change PostForm.Title t) = Some w''
         ∧ PostForm.title (PostForm.formData (PostForm.form w'')) = t
         ∧ PostForm.slug (PostForm.formData (PostForm.form w'')) = "").
Proof.
  intros w w' Hstep. apply step_inv in Hstep as [Hidle ->]. simpl.
  split.
  { unfold PostForm.handleClear, PostForm.initial, PostForm.setSuccessMessage,
      PostForm.setServerError, PostForm.setErrors, PostForm.setFormData,
      PostForm.setIsSlugManuallyEdited. simpl. by rewrite Hidle. }
  split; [done |]. split; [done |].
  intros Hflag t. rewrite Hidle. eexists. split; [done |]. simpl.
  rewrite change_formData. simpl. by rewrite Hflag.
Qed.

(** X19.  In both forms a submission that validation refuses changes
    the form into one that a second press of the button leaves exactly
    as it is: the same errors are found again, nothing is called,
    nothing is logged. *)
Theorem refused_submission_is_idempotent :
  (∀ w w1,
     (0 < JS.keys_length (validatePostForm (PostForm.formData (PostForm.form w))))%nat →
     postStep w PostForm.Submit = Some w1 →
     postStep w1 PostForm.Submit = Some w1
     ∧ PostForm.log w1 = PostForm.log w)
  ∧ (∀ w w1,
       (0 < JS.keys_length (validateLoginForm (LoginForm.formData (LoginForm.form w))))%nat →
       loginStep w LoginForm.Submit = Some w1 →
       loginStep w1 LoginForm.Submit = Some w1
       ∧ LoginForm.log w1 = LoginForm.log w).
Proof.
  split.
  - intros w w1 Hkeys Hsubmit. apply step_inv in Hsubmit as [Hidle ->].
    rewrite (post_submit_invalid _ _ Hkeys). simpl. rewrite !app_nil_r.
    split; [| done]. rewrite Hidle.
    rewrite (post_submit_invalid validatePostForm) by done. simpl.
    by rewrite !app_nil_r.
  - intros w w1 Hkeys Hsubmit. apply login_step_inv in Hsubmit as [Hidle ->].
    rewrite (login_submit_invalid _ _ Hkeys). simpl. rewrite !app_nil_r.
    split; [| done]. rewrite Hidle.
    rewrite (login_submit_invalid validateLoginForm) by done. simpl.
    by rewrite !app_nil_r.
Qed.

(** X20.  From the mount, typing a title and a content and pressing the
    button calls [createPost] once, with that title, the slug
    [generateSlug] gives for it, that content and no category, provided
    validation accepts this data; typing an email and a password and
    pressing the button calls [authorizeUser] once with that email and
    that password, provided validation accepts them.  In both cases the
    form is then submitting and awaits that call. *)
Theorem typed_data_is_what_is_sent :
  (∀ t c,
     let data := {| PostForm.title := t; PostForm.slug := generateSlug t;
                    PostForm.content := c; PostForm.categories := Some [] |} in
     JS.keys_length (validatePostForm data) = 0 →
     postRun PostForm.mount
       [PostForm.Change PostForm.Title t; PostForm.Change PostForm.Content c;
        PostForm.Submit]
     = Some {| PostForm.form :=
                 {| PostForm.formData := data;
                    PostForm.errors := ∅;
                    PostForm.isSubmitting := true;
                    PostForm.serverError := "";
                    PostForm.successMessage := "";
                    PostForm.isSlugManuallyEdited := false |};
               PostForm.awaiting := [data];
               PostForm.log := [CallAction data] |})
  ∧ (∀ e p,
       let data := {| LoginForm.email := e; LoginForm.password := p |} in
       JS.keys_length (validateLoginForm data) = 0 →
       loginRun LoginForm.mount
         [LoginForm.Change LoginForm.Email e; LoginForm.Change LoginForm.Password p;
          LoginForm.Submit]
       = Some {| LoginForm.form :=
                   {| LoginForm.formData := data;
                      LoginForm.errors := ∅;
                      LoginForm.isSubmitting := true;
                      LoginForm.serverError := "" |};
                 LoginForm.awaiting := [(e, p)];
                 LoginForm.log := [CallAction (e, p)] |}).
Proof.
  split.
  - intros t c data Hvalid. subst data.
    rewrite !run_cons. cbn. rewrite get_empty. cbn. rewrite get_empty. cbn.
    unfold PostForm.handleSubmit. simpl. by rewrite Hvalid.
  - intros e p data Hvalid. subst data.
    cbn. rewrite get_empty. cbn. rewrite get_empty. cbn.
    unfold LoginForm.handleSubmit. simpl. by rewrite Hvalid.
Qed.

End WholeSubmissions.

(** ** The success banner *)

Section SuccessBanner.

Variable generateSlug : string → string.
Variable validatePostForm : PostForm.PostFormData → FormErrors.
Variable categoriesProp : list PostForm.Category.
Variable onSuccess : bool.

Local Abbreviation step :=
  (PostForm.step generateSlug validatePostForm categoriesProp onSuccess).
Local Abbreviation run :=
  (PostForm.run generateSlug validatePostForm categoriesProp onSuccess).

Lemma step_success_over_blank w e w' :
  SuccessOverBlank (PostForm.form w) →
  step w e = Some w' →
  SuccessOverBlank (PostForm.form w').
Proof.
  unfold SuccessOverBlank. intros Hblank Hstep. apply step_inv in Hstep.
  destruct e.
  - destruct Hstep as [_ ->]. simpl. by rewrite change_successMessage.
  - destruct Hstep as (_ & _ & ->). exact Hblank.
  - destruct Hstep as [_ ->]. simpl. unfold PostForm.handleSubmit.
    by destruct (Nat.ltb 0 _).
  - by destruct Hstep as [_ ->].
  - destruct Hstep as (call & rest & _ & ->). simpl.
    destruct o as [result |]; simpl;
      [destruct (success result); [success_paths onSuccess outside |] |];
      simpl; try done.
    all: intros Hup; destruct (Hblank Hup) as (? & ? & ? & ? & ?); done.
Qed.

(** X22.  In every state a PostForm reaches from its mount, the success
    message is only up over a form whose title, slug and content are
    empty, with the manual-edit flag down and no submission under way:
    any typing, a clear or a new submission takes the message down, and
    ticking categories is all that can happen under it. *)
Theorem success_banner_over_blank_form :
  ∀ events w,
    run PostForm.mount events = Some w →
    PostForm.successMessage (PostForm.form w) ≠ "" →
    PostForm.title (PostForm.formData (PostForm.form w)) = ""
    ∧ PostForm.slug (PostForm.formData (PostForm.form w)) = ""
    ∧ PostForm.content (PostForm.formData (PostForm.form w)) = ""
    ∧ PostForm.isSlugManuallyEdited (PostForm.form w) = false
    ∧ PostForm.isSubmitting (PostForm.form w) = false.
Proof.
  intros events w Hrun.
  apply (run_preserves generateSlug validatePostForm categoriesProp onSuccess
           (fun w => SuccessOverBlank (PostForm.form w))
           step_success_over_blank events PostForm.mount w); [| done].
  intros Hup. by destruct Hup.
Qed.

End SuccessBanner.

(** ** The further theorems at sample forms *)

Lemma change_shows_typed_value_witness :
  PostForm.Slug ≠ PostForm.Title
  ∧ postInputValue
      (PostForm.render sampleCategories
         (PostForm.handleChange StringUtils.generateSlug PostForm.initial
            PostForm.Title "Hello World")) PostForm.Slug
    = "hello-world"
  ∧ LoginForm.Email ≠ LoginForm.Password
  ∧ loginInputValue
      (LoginForm.render
         (LoginForm.handleChange (LoginForm.form loginReady) LoginForm.Password "other"))
      LoginForm.Email
    = "editor@example.org".
Proof.
  destruct change_shows_typed_value as [Hpost Hlogin].
  assert (PostForm.Slug ≠ PostForm.Title) as Hne by discriminate.
  assert (LoginForm.Email ≠ LoginForm.Password) as Hne' by discriminate.
  split; [exact Hne |]. split.
  - destruct (Hpost StringUtils.generateSlug sampleCategories PostForm.initial
                PostForm.Title "Hello World") as (_ & Hothers & _).
    exact (Hothers PostForm.Slug Hne).
  - split; [exact Hne' |].
    destruct (Hlogin (LoginForm.form loginReady) LoginForm.Password "other")
      as (_ & Hothers & _).
    exact (Hothers LoginForm.Email Hne').
Defined.

Lemma change_keeps_error_keys_witness :
  JS.keys_length (PostForm.errors emptySubmitted) = 2
  ∧ JS.keys_length
      (PostForm.errors
         (PostForm.handleChange StringUtils.generateSlug emptySubmitted
            PostForm.Title "Hello World"))
    = JS.keys_length (PostForm.errors emptySubmitted)
  ∧ JS.keys_length
      (LoginForm.errors
         (LoginForm.handleChange emptyLoginSubmitted LoginForm.Email "editor@example.org"))
    = JS.keys_length (LoginForm.errors emptyLoginSubmitted).
Proof.
  destruct change_keeps_error_keys as [Hpost Hlogin].
  split; [vm_compute; reflexivity |]. split.
  - exact (proj1 (proj2 (Hpost StringUtils.generateSlug emptySubmitted
                           PostForm.Title "Hello World"))).
  - exact (proj1 (proj2 (Hlogin emptyLoginSubmitted LoginForm.Email
                           "editor@example.org"))).
Defined.

Lemma awaited_post_is_the_one_displayed_witness :
  PostForm.run StringUtils.generateSlug Validation.validatePostForm [] true
    PostForm.mount (draftTrace ++ [PostForm.Submit]) = Some draftInFlight
  ∧ PostForm.awaiting draftInFlight =
      if PostForm.isSubmitting (PostForm.form draftInFlight)
      then [PostForm.formData (PostForm.form draftInFlight)]
      else [].
Proof.
  assert (PostForm.run StringUtils.generateSlug Validation.validatePostForm [] true
            PostForm.mount (draftTrace ++ [PostForm.Submit]) = Some draftInFlight)
    as Hrun by (vm_compute; reflexivity).
  split; [exact Hrun |].
  exact (awaited_post_is_the_one_displayed
           StringUtils.generateSlug Validation.validatePostForm [] true _ _ Hrun).
Defined.

Lemma selection_is_offered_without_repetition_witness :
  ∃ w,
    PostForm.run StringUtils.generateSlug Validation.validatePostForm sampleCategories true
      PostForm.mount selectTrace = Some w
    ∧ PostForm.categories (PostForm.formData (PostForm.form w)) = Some ["tech"]
    ∧ ∃ l, PostForm.categories (PostForm.formData (PostForm.form w)) = Some l
           ∧ NoDup l
           ∧ (∀ x, x ∈ l → x ∈ offered sampleCategories)
           ∧ (∀ x, x ∈ l ↔ x ∈ ticked (PostForm.render sampleCategories (PostForm.form w))).
Proof.
  eexists. split; [vm_compute; reflexivity |]. split; [reflexivity |].
  apply (selection_is_offered_without_repetition
           StringUtils.generateSlug Validation.validatePostForm sampleCategories true
           selectTrace).
  vm_compute; reflexivity.
Defined.

Lemma slug_in_sync_with_title_witness :
  ∃ w,
    PostForm.run StringUtils.generateSlug Validation.validatePostForm [] true
      PostForm.mount helloTrace = Some w
    ∧ PostForm.isSlugManuallyEdited (PostForm.form w) = false
    ∧ PostForm.title (PostForm.formData (PostForm.form w)) = "Hello World"
    ∧ ((PostForm.title (PostForm.formData (PostForm.form w)) = ""
        ∧ PostForm.slug (PostForm.formData (PostForm.form w)) = "")
       ∨ PostForm.slug (PostForm.formData (PostForm.form w))
         = StringUtils.generateSlug (PostForm.title (PostForm.formData (PostForm.form w)))).
Proof.
  eexists. split; [vm_compute; reflexivity |].
  split; [reflexivity |]. split; [reflexivity |].
  apply (slug_in_sync_with_title
           StringUtils.generateSlug Validation.validatePostForm [] true helloTrace);
    [vm_compute; reflexivity | reflexivity].
Defined.


Lemma no_banner_while_creating_witness :
  PostForm.run StringUtils.generateSlug Validation.validatePostForm [] true
    PostForm.mount (draftTrace ++ [PostForm.Submit]) = Some draftInFlight
  ∧ PostForm.isSubmitting (PostForm.form draftInFlight) = true
  ∧ PostForm.serverError (PostForm.form draftInFlight) = ""
  ∧ PostForm.successMessage (PostForm.form draftInFlight) = ""
  ∧ PostForm.errorPanel (PostForm.render [] (PostForm.form draftInFlight)) = None
  ∧ PostForm.successPanel (PostForm.render [] (PostForm.form draftInFlight)) = None
  ∧ PostForm.submitLabel (PostForm.render [] (PostForm.form draftInFlight))
    = "Creating...".
Proof.
  assert (PostForm.run StringUtils.generateSlug Validation.validatePostForm [] true
            PostForm.mount (draftTrace ++ [PostForm.Submit]) = Some draftInFlight)
    as Hrun by (vm_compute; reflexivity).
  split; [exact Hrun |]. split; [reflexivity |].
  exact (no_banner_while_creating
           StringUtils.generateSlug Validation.validatePostForm [] true _ _ Hrun eq_refl).
Defined.

Lemma awaited_login_is_the_one_displayed_witness :
  LoginForm.run Validation.validateLoginForm true LoginForm.mount loginTrace
  = Some loginInFlight
  ∧ LoginForm.awaiting loginInFlight = [("editor@example.org", "secret")]
  ∧ LoginForm.awaiting loginInFlight =
      (if LoginForm.isSubmitting (LoginForm.form loginInFlight)
       then [(LoginForm.email (LoginForm.formData (LoginForm.form loginInFlight)),
              LoginForm.password (LoginForm.formData (LoginForm.form loginInFlight)))]
       else []).
Proof.
  assert (LoginForm.run Validation.validateLoginForm true LoginForm.mount loginTrace
          = Some loginInFlight) as Hrun by (vm_compute; reflexivity).
  split; [exact Hrun |]. split; [reflexivity |].
  exact (proj1 (awaited_login_is_the_one_displayed
                  Validation.validateLoginForm true _ _ Hrun)).
Defined.


Lemma successful_submission_end_state_witness :
  (PostForm.step StringUtils.generateSlug Validation.validatePostForm [] true
     draftReady PostForm.Submit = Some draftInFlight
   ∧ success created = true
   ∧ ∃ w2,
       PostForm.step StringUtils.generateSlug Validation.validatePostForm [] true
         draftInFlight (PostForm.Settle (Resolved created) stormy) = Some w2
       ∧ PostForm.formData (PostForm.form w2) = PostForm.emptyForm
       ∧ PostForm.serverError (PostForm.form w2) = "An unexpected error occurred"
       ∧ PostForm.log w2 = [CallAction draft; CallOnSuccess])
  ∧ (LoginForm.step Validation.validateLoginForm true loginReady LoginForm.Submit
     = Some loginInFlight
     ∧ ∃ w2,
         LoginForm.step Validation.validateLoginForm true
           loginInFlight (LoginForm.Settle (Resolved created) calm) = Some w2
         ∧ LoginForm.form w2 = LoginForm.setServerError "" (LoginForm.form loginReady)
         ∧ LoginForm.log w2
           = [CallAction ("editor@example.org", "secret"); CallOnSuccess; Reload]).
Proof.
  destruct (successful_submission_end_state
              StringUtils.generateSlug Validation.validatePostForm []
              Validation.validateLoginForm true) as [Hpost Hlogin].
  split.
  - assert (PostForm.step StringUtils.generateSlug Validation.validatePostForm [] true
              draftReady PostForm.Submit = Some draftInFlight) as Hsubmit
      by (vm_compute; reflexivity).
    split; [exact Hsubmit |]. split; [reflexivity |].
    eexists. split; [vm_compute; reflexivity |].
    edestruct (Hpost draftReady draftInFlight created stormy) as [Hform Hlog];
      [vm_compute; reflexivity | exact Hsubmit | reflexivity | vm_compute; reflexivity |].
    split; [by rewrite Hform |]. split; [by rewrite Hform | exact Hlog].
  - assert (LoginForm.step Validation.validateLoginForm true loginReady LoginForm.Submit
            = Some loginInFlight) as Hsubmit by (vm_compute; reflexivity).
    split; [exact Hsubmit |].
    eexists. split; [vm_compute; reflexivity |].
    edestruct (Hlogin loginReady loginInFlight created calm) as [Hform Hlog];
      [vm_compute; reflexivity | exact Hsubmit | reflexivity | vm_compute; reflexivity |].
    split; [exact Hform | exact Hlog].
Defined.

Lemma clear_keeps_manual_edit_flag_witness :
  ∃ w',
    PostForm.step StringUtils.generateSlug Validation.validatePostForm [] true
      draftReady PostForm.Clear = Some w'
    ∧ PostForm.isSlugManuallyEdited (PostForm.form draftReady) = true
    ∧ PostForm.form w' =
        PostForm.setIsSlugManuallyEdited
          (PostForm.isSlugManuallyEdited (PostForm.form draftReady)) PostForm.initial
    ∧ ∃ w'',
        PostForm.step StringUtils.generateSlug Validation.validatePostForm [] true
          w' (PostForm.Change PostForm.Title "Hello World") = Some w''
        ∧ PostForm.title (PostForm.formData (PostForm.form w'')) = "Hello World"
        ∧ PostForm.slug (PostForm.formData (PostForm.form w'')) = "".
Proof.
  eexists. split; [vm_compute; reflexivity |]. split; [reflexivity |].
  edestruct (clear_keeps_manual_edit_flag
               StringUtils.generateSlug Validation.validatePostForm [] true draftReady)
    as (Hform & _ & _ & Htitle); [vm_compute; reflexivity |].
  split; [exact Hform |]. exact (Htitle eq_refl "Hello World").
Defined.

Lemma refused_submission_is_idempotent_witness :
  (∃ w1,
     PostForm.step StringUtils.generateSlug Validation.validatePostForm [] true
       PostForm.mount PostForm.Submit = Some w1
     ∧ PostForm.errors (PostForm.form w1) = Validation.validatePostForm PostForm.emptyForm
     ∧ PostForm.step StringUtils.generateSlug Validation.validatePostForm [] true
         w1 PostForm.Submit = Some w1)
  ∧ (∃ w1,
       LoginForm.step Validation.validateLoginForm true LoginForm.mount LoginForm.Submit
       = Some w1
       ∧ LoginForm.step Validation.validateLoginForm true w1 LoginForm.Submit = Some w1).
Proof.
  destruct (refused_submission_is_idempotent
              StringUtils.generateSlug Validation.validatePostForm []
              Validation.validateLoginForm true) as [Hpost Hlogin].
  split.
  - eexists. split; [vm_compute; reflexivity |]. split; [reflexivity |].
    apply (Hpost PostForm.mount); [vm_compute; lia | vm_compute; reflexivity].
  - eexists. split; [vm_compute; reflexivity |].
    apply (Hlogin LoginForm.mount); [vm_compute; lia | vm_compute; reflexivity].
Defined.

Lemma typed_data_is_what_is_sent_witness :
  (∃ w,
     PostForm.run StringUtils.generateSlug Validation.validatePostForm [] true
       PostForm.mount (helloTrace ++ [PostForm.Submit]) = Some w
     ∧ PostForm.log w =
         [CallAction {| PostForm.title := "Hello World"; PostForm.slug := "hello-world";
                        PostForm.content := "body"; PostForm.categories := Some [] |}])
  ∧ (∃ w,
       LoginForm.run Validation.validateLoginForm true LoginForm.mount loginTrace = Some w
       ∧ LoginForm.log w = [CallAction ("editor@example.org", "secret")]).
Proof.
  destruct (typed_data_is_what_is_sent
              StringUtils.generateSlug Validation.validatePostForm []
              Validation.validateLoginForm true) as [Hpost Hlogin].
  split.
  - eexists. split.
    + apply (Hpost "Hello World" "body"). vm_compute; reflexivity.
    + reflexivity.
  - eexists. split.
    + apply (Hlogin "editor@example.org" "secret"). vm_compute; reflexivity.
    + reflexivity.
Defined.

Lemma success_banner_over_blank_form_witness :
  ∃ w,
    PostForm.run StringUtils.generateSlug Validation.validatePostForm sampleCategories true
      PostForm.mount (editThenSucceed ++ [PostForm.Toggle "tech"]) = Some w
    ∧ PostForm.successMessage (PostForm.form w) = "Post created successfully!"
    ∧ PostForm.successMessage (PostForm.form w) ≠ ""
    ∧ PostForm.title (PostForm.formData (PostForm.form w)) = ""
    ∧ PostForm.slug (PostForm.formData (PostForm.form w)) = ""
    ∧ PostForm.content (PostForm.formData (PostForm.form w)) = ""
    ∧ PostForm.isSlugManuallyEdited (PostForm.form w) = false
    ∧ PostForm.isSubmitting (PostForm.form w) = false.
Proof.
  eexists. split; [vm_compute; reflexivity |]. split; [reflexivity |].
  split; [discriminate |].
  apply (success_banner_over_blank_form
           StringUtils.generateSlug Validation.validatePostForm sampleCategories true
           (editThenSucceed ++ [PostForm.Toggle "tech"]));
    [vm_compute; reflexivity | discriminate].
Defined.
